(** * Escape Explorer: a model of [escapeexplorer/main.py]

    The importer reads two listings of escape rooms (a terse nomination list
    and a ranking table), decodes every terse line, splits composite names and
    merges both listings.  This file embeds the pure part of that program
    (everything after the markup extraction) and states its properties.

    Python [str] values are represented by their UTF-8 encoding in [string].
    Every needle the program searches for is a well-formed UTF-8 literal and
    every strip set is ASCII, so on well-formed text the byte-level operations
    below coincide with Python's code-point-level ones. *)

From Stdlib Require Import List String Ascii Bool Arith ZArith Lia DecimalString.
From Stdlib Require Import Permutation.
Import ListNotations.
Open Scope string_scope.

(** ** Python built-ins used by the program *)

Module Py.

(** Exceptions the program can raise. *)
Inductive exn : Type :=
| IndexError
| ValueError
| AttributeError (msg : string)
| AssertionError (msg : string).

(** A computation either raises or returns. *)
Inductive result (A : Type) : Type :=
| Raise (e : exn)
| Ok (a : A).
Arguments Raise {A} e.
Arguments Ok {A} a.

Definition bind {A B : Type} (m : result A) (k : A -> result B) : result B :=
  match m with
  | Raise e => Raise e
  | Ok a => k a
  end.

(** A value whose run-time type is not fixed by the program text. *)
Inductive value : Type :=
| Int (n : Z)
| Str (s : string).

(** [sub in s] *)
Fixpoint contains (sub s : string) : bool :=
  match s with
  | EmptyString => prefix sub s
  | String _ s' => prefix sub s || contains sub s'
  end.

(** Continuation bytes of a UTF-8 sequence: 10xxxxxx. *)
Definition is_continuation (c : ascii) : bool :=
  match c with
  | Ascii _ _ _ _ _ _ b6 b7 => b7 && negb b6
  end.

Definition at_boundary (s : string) : bool :=
  match s with
  | EmptyString => true
  | String c _ => negb (is_continuation c)
  end.

(** [s.replace("", new)] inserts [new] around every character. *)
Fixpoint replace_empty (new s : string) : string :=
  match s with
  | EmptyString => EmptyString
  | String c s' =>
      String c ((if at_boundary s' then new else EmptyString)
                ++ replace_empty new s')
  end.

(** Left-to-right scan for non-overlapping occurrences of [old]; [skip]
    counts the characters of a match still to be dropped. *)
Fixpoint replace_go (old new : string) (skip : nat) (s : string) : string :=
  match s with
  | EmptyString => EmptyString
  | String c s' =>
      match skip with
      | S k => replace_go old new k s'
      | O =>
          if prefix old s
          then new ++ replace_go old new (length old - 1) s'
          else String c (replace_go old new 0 s')
      end
  end.

(** [s.replace(old, new)] *)
Definition replace (old new s : string) : string :=
  match old with
  | EmptyString => new ++ replace_empty new s
  | String _ _ => replace_go old new 0 s
  end.

Definition cons_head (c : ascii) (l : list string) : list string :=
  match l with
  | [] => [String c EmptyString]
  | h :: t => String c h :: t
  end.

Fixpoint split_go (sep : string) (skip : nat) (s : string) : list string :=
  match s with
  | EmptyString => [EmptyString]
  | String c s' =>
      match skip with
      | S k => split_go sep k s'
      | O =>
          if prefix sep s
          then EmptyString :: split_go sep (length sep - 1) s'
          else cons_head c (split_go sep 0 s')
      end
  end.

(** [s.split(sep)] for a non-empty separator (every call site passes a
    non-empty literal; Python raises [ValueError] on an empty one). *)
Definition split (sep s : string) : list string := split_go sep 0 s.

(** [sep.join(l)] *)
Definition join (sep : string) (l : list string) : string := concat sep l.

Fixpoint mem_char (c : ascii) (chars : string) : bool :=
  match chars with
  | EmptyString => false
  | String d chars' => Ascii.eqb c d || mem_char c chars'
  end.

(** [s.lstrip(chars)] *)
Fixpoint lstrip (chars s : string) : string :=
  match s with
  | EmptyString => EmptyString
  | String c s' => if mem_char c chars then lstrip chars s' else s
  end.

(** [s.rstrip(chars)] *)
Fixpoint rstrip (chars s : string) : string :=
  match s with
  | EmptyString => EmptyString
  | String c s' =>
      match rstrip chars s' with
      | EmptyString =>
          if mem_char c chars then EmptyString else String c EmptyString
      | t => String c t
      end
  end.

(** [s.strip(chars)] *)
Definition strip (chars s : string) : string := lstrip chars (rstrip chars s).

(** [l[i]] for [i >= 0] *)
Definition getitem {A : Type} (l : list A) (i : nat) : result A :=
  match nth_error l i with
  | Some a => Ok a
  | None => Raise IndexError
  end.

(** [l[-k]] for [k >= 1] *)
Definition getitem_neg {A : Type} (l : list A) (k : nat) : result A :=
  if (k <=? List.length l)%nat
  then getitem l (List.length l - k)
  else Raise IndexError.

(** [l[:-k]] for [k >= 1] *)
Definition slice_to_neg {A : Type} (l : list A) (k : nat) : list A :=
  firstn (List.length l - k) l.

(** [str(n)] for a non-negative integer *)
Definition str_of_nat (n : nat) : string :=
  NilEmpty.string_of_uint (Nat.to_uint n).

End Py.

Import Py.

Notation "x <- m ;; k" := (bind m (fun x => k))
  (at level 61, m at next level, right associativity).
Notation "' p <- m ;; k" := (bind m (fun x => match x with p => k end))
  (at level 61, p pattern, m at next level, right associativity).

(** ** Data model *)

Inductive TerrorLevel : Type :=
| NONE
| SPOOKY
| PASSIVELY_SCARY
| ACTIVELY_SCARY.

(** The string value of each member of the [StrEnum]. *)
Definition TerrorLevel_value (t : TerrorLevel) : string :=
  match t with
  | NONE => "None"
  | SPOOKY => "Spooky"
  | PASSIVELY_SCARY => "Passively scary"
  | ACTIVELY_SCARY => "Actively scary"
  end.

Record Phase1Room : Type := mkPhase1Room {
  name : string;
  nominations : value;
  new : bool;
  terror_level : TerrorLevel;
  languages : list string
}.

Record Phase2Room : Type := mkPhase2Room {
  rank : string;
  p2_name : string;
  score : string;
  players : string;
  coverage : string;
  comps : string;
  abstains : string;
  last_years_rank : option string
}.

Record EscapeRoom : Type := mkEscapeRoom {
  room_name_english : string;
  room_name_original : option string;
  company_name : string;
  location : string;
  room_languages : list string;
  room_terror_level : TerrorLevel;
  phase1_nominations : value;
  phase2_rank : string
}.

(** ** The decoder for terse lines ([read_phase1]) *)

Definition terror_message (line : string) : string :=
  "Couldn't find a terror level in '" ++ line ++ "'".

Definition parse_terror_level (line : string) : result TerrorLevel :=
  if contains "☀" line then Ok NONE
  else if contains "👻" line then Ok SPOOKY
  else if contains "🔦" line then Ok PASSIVELY_SCARY
  else if contains "😱" line then Ok ACTIVELY_SCARY
  else Raise (AttributeError (terror_message line)).

(** One [if marker in line: yield language] statement of the generator. *)
Definition yield_if (marker language line : string) : list string :=
  if contains marker line then [language] else [].

Definition parse_languages (line : string) : list string :=
  yield_if "🇬🇧" "English" line
  ++ yield_if "EU" "Basque" line
  ++ yield_if "🇧🇬" "Bulgarian" line
  ++ yield_if "CA" "Catalan" line
  ++ yield_if "🇭🇷" "Croatian" line
  ++ yield_if "🇨🇿" "Czech" line
  ++ yield_if "🇩🇰" "Danish" line
  ++ yield_if "🇳🇱" "Dutch" line
  ++ yield_if "🇪🇪" "Estonian" line
  ++ yield_if "🇫🇮" "Finnish" line
  ++ yield_if "🇫🇷" "French" line
  ++ yield_if "🇩🇪" "German" line
  ++ yield_if "🇬🇷" "Greek" line
  ++ yield_if "🇮🇱" "Hebrew" line
  ++ yield_if "🇭🇺" "Hungarian" line
  ++ yield_if "🇮🇹" "Italian" line
  ++ yield_if "🇯🇵" "Japanese" line
  ++ yield_if "🇱🇻" "Latvian" line
  ++ yield_if "🇱🇹" "Lithuanian" line
  ++ yield_if "🇵🇱" "Polish" line
  ++ yield_if "🇵🇹" "Portuguese" line
  ++ yield_if "🇷🇴" "Romanian" line
  ++ yield_if "🇷🇺" "Russian" line
  ++ yield_if "🇷🇸" "Serbian" line
  ++ yield_if "🇸🇰" "Slovak" line
  ++ yield_if "🇸🇮" "Slovenian" line
  ++ yield_if "🇪🇸" "Spanish" line
  ++ yield_if "🇸🇪" "Swedish" line
  ++ yield_if "🇺🇦" "Ukrainian" line.

(** The marker/language pairs tested by [parse_languages], in program
    order. *)
Definition language_table : list (string * string) :=
  [("🇬🇧", "English"); ("EU", "Basque"); ("🇧🇬", "Bulgarian"); ("CA", "Catalan");
   ("🇭🇷", "Croatian"); ("🇨🇿", "Czech"); ("🇩🇰", "Danish"); ("🇳🇱", "Dutch");
   ("🇪🇪", "Estonian"); ("🇫🇮", "Finnish"); ("🇫🇷", "French"); ("🇩🇪", "German");
   ("🇬🇷", "Greek"); ("🇮🇱", "Hebrew"); ("🇭🇺", "Hungarian"); ("🇮🇹", "Italian");
   ("🇯🇵", "Japanese"); ("🇱🇻", "Latvian"); ("🇱🇹", "Lithuanian");
   ("🇵🇱", "Polish"); ("🇵🇹", "Portuguese"); ("🇷🇴", "Romanian");
   ("🇷🇺", "Russian"); ("🇷🇸", "Serbian"); ("🇸🇰", "Slovak"); ("🇸🇮", "Slovenian");
   ("🇪🇸", "Spanish"); ("🇸🇪", "Swedish"); ("🇺🇦", "Ukrainian")].

Definition language_markers : list string := map fst language_table.

(** The four rating markers. *)
Definition has_rating_marker (line : string) : bool :=
  contains "☀" line || contains "👻" line
  || contains "🔦" line || contains "😱" line.

(** The body of the loop of [read_phase1]: the keyword arguments of
    [Phase1Room(...)] are evaluated in the order they are written. *)
Definition decode_line (line : string) : result Phase1Room :=
  let name := join " " (slice_to_neg (split " " line) 2) in
  token <- getitem_neg (split " " line) 2 ;;
  let nominations := Str (strip "()" token) in
  let new := contains "🆕" line in
  terror_level <- parse_terror_level line ;;
  let languages := parse_languages line in
  Ok (mkPhase1Room name nominations new terror_level languages).

Fixpoint decode_lines (lines : list string) : result (list Phase1Room) :=
  match lines with
  | [] => Ok []
  | line :: rest =>
      room <- decode_line line ;;
      phase1 <- decode_lines rest ;;
      Ok (room :: phase1)
  end.

(** The normalisation applied to each raw segment. *)
Definition _strip (s : string) : result string :=
  getitem_neg
    (split (String "010" "")
       (replace "</strong>" "" (replace "<strong>" "" (strip (String "010" "") s))))
    1.

Fixpoint strip_segments (l : list string) : result (list string) :=
  match l with
  | [] => Ok []
  | s :: rest =>
      line <- _strip s ;;
      lines <- strip_segments rest ;;
      Ok (line :: lines)
  end.

(** [read_phase1] from the text of the paragraph onwards. *)
Definition read_phase1 (text : string) : result (list Phase1Room) :=
  lines <- strip_segments (slice_to_neg (split "<br/>" text) 1) ;;
  decode_lines lines.

(** ** The composite-name splitter ([parse_name]) *)

Definition organizer_exception : string :=
  "- Escape Stories - Live Escape Game Wuppertal".

Definition duplicate_name : string := "Petra - The Lost Kingdom".

(** The [&amp;] and novelty-marker normalisation at the top of [parse_name]. *)
Definition normalise (line : string) : string :=
  replace "🆕" "" (replace "&amp;" "&" line).

(** The name portion of an already normalised line. *)
Definition room_name_part_of (line : string) : result string :=
  if contains organizer_exception line
  then getitem (split " - Escape Stories" line) 0
  else Ok (join " - " (slice_to_neg (split " - " line) 1)).

Definition parse_name (line0 : string)
  : result (string * option string * string * string) :=
  let line := normalise line0 in
  room_name_part <- room_name_part_of line ;;
  english <- getitem (split "[" room_name_part) 0 ;;
  original <-
    (if contains "[" room_name_part
     then (x <- getitem (split "[" room_name_part) 1 ;;
           Ok (Some (replace "]" "" x)))
     else Ok None) ;;
  let '(room_name_english, room_name_original) :=
    if contains duplicate_name line
    then (duplicate_name, Some "Petra - El reino perdido")
    else (english, original) in
  let room_location_part := lstrip " - " (replace room_name_part "" line) in
  last_group <- getitem_neg (split "(" room_location_part) 1 ;;
  let location := rstrip ")" last_group in
  let company_name :=
    strip " " (replace ("(" ++ location ++ ")") "" room_location_part) in
  Ok (room_name_english, room_name_original, company_name, location).

(** ** The listing merger ([get_rooms]) *)

Definition value_eqb (a b : value) : bool :=
  match a, b with
  | Int m, Int n => Z.eqb m n
  | Str s, Str t => String.eqb s t
  | _, _ => false
  end.

Definition option_eqb (a b : option string) : bool :=
  match a, b with
  | None, None => true
  | Some s, Some t => String.eqb s t
  | _, _ => false
  end.

Fixpoint strings_eqb (a b : list string) : bool :=
  match a, b with
  | [], [] => true
  | s :: a', t :: b' => String.eqb s t && strings_eqb a' b'
  | _, _ => false
  end.

Definition TerrorLevel_eqb (a b : TerrorLevel) : bool :=
  match a, b with
  | NONE, NONE | SPOOKY, SPOOKY
  | PASSIVELY_SCARY, PASSIVELY_SCARY | ACTIVELY_SCARY, ACTIVELY_SCARY => true
  | _, _ => false
  end.

(** The [__eq__] that [@dataclass] generates: field-wise comparison. *)
Definition EscapeRoom_eqb (a b : EscapeRoom) : bool :=
  String.eqb (room_name_english a) (room_name_english b)
  && option_eqb (room_name_original a) (room_name_original b)
  && String.eqb (company_name a) (company_name b)
  && String.eqb (location a) (location b)
  && strings_eqb (room_languages a) (room_languages b)
  && TerrorLevel_eqb (room_terror_level a) (room_terror_level b)
  && value_eqb (phase1_nominations a) (phase1_nominations b)
  && String.eqb (phase2_rank a) (phase2_rank b).

(** The body of the first loop of [get_rooms]. *)
Definition new_room (room : Phase1Room) : result EscapeRoom :=
  '(room_name_english, room_name_original, company_name, location) <-
    parse_name (name room) ;;
  Ok (mkEscapeRoom room_name_english room_name_original company_name location
        (languages room) (terror_level room) (nominations room) "Not ranked").

Fixpoint build_rooms (phase1 : list Phase1Room) : result (list EscapeRoom) :=
  match phase1 with
  | [] => Ok []
  | room :: rest =>
      r <- new_room room ;;
      rooms <- build_rooms rest ;;
      Ok (r :: rooms)
  end.

(** [rooms.index(x)]: position of the first element equal to [x]. *)
Fixpoint index_of (x : EscapeRoom) (rooms : list EscapeRoom) : result nat :=
  match rooms with
  | [] => Raise ValueError
  | r :: rest =>
      if EscapeRoom_eqb r x then Ok 0
      else i <- index_of x rest ;; Ok (S i)
  end.

(** [rooms.pop(i)] keeps the list without its [i]-th element. *)
Definition pop (rooms : list EscapeRoom) (i : nat) : result (list EscapeRoom) :=
  if (i <? List.length rooms)%nat
  then Ok (firstn i rooms ++ skipn (S i) rooms)%list
  else Raise IndexError.

Definition is_duplicate (r : EscapeRoom) : bool :=
  String.eqb (room_name_english r) duplicate_name.

(** The duplicate-collapse statement between the two loops. *)
Definition remove_duplicate (rooms : list EscapeRoom)
  : result (list EscapeRoom) :=
  first <- getitem (filter is_duplicate rooms) 0 ;;
  i <- index_of first rooms ;;
  pop rooms i.

Definition same_key (english_name company : string) (r : EscapeRoom) : bool :=
  String.eqb (room_name_english r) english_name
  && String.eqb (company_name r) company.

(** The rooms are mutable objects held by the list [rooms], each constructed
    once and stored once, so a reference to a room is its position in
    [rooms]. *)
Fixpoint positions_from (p : EscapeRoom -> bool) (i : nat)
  (rooms : list EscapeRoom) : list nat :=
  match rooms with
  | [] => []
  | r :: rest =>
      if p r then i :: positions_from p (S i) rest
      else positions_from p (S i) rest
  end.

Definition correlation_message (n : nat) (english_name company : string)
  : string :=
  "Found " ++ str_of_nat n ++ " with name " ++ english_name
  ++ " and company " ++ company.

(** [find_room] is a closure: its second parameter is spelt [copmany_name]
    and never read; the body reads the variable [company_name] of the
    enclosing [get_rooms], passed here as [enclosing_company_name]. *)
Definition find_room (rooms : list EscapeRoom) (enclosing_company_name : string)
  (english_name copmany_name : string) : result nat :=
  let room_candidates :=
    positions_from (same_key english_name enclosing_company_name) 0 rooms in
  if (List.length room_candidates =? 1)%nat
  then getitem room_candidates 0
  else Raise (AssertionError
                (correlation_message (List.length room_candidates)
                   english_name enclosing_company_name)).

Definition with_rank (r : EscapeRoom) (rank : string) : EscapeRoom :=
  mkEscapeRoom (room_name_english r) (room_name_original r) (company_name r)
    (location r) (room_languages r) (room_terror_level r)
    (phase1_nominations r) rank.

(** [room_ref.phase2_rank = rank] *)
Fixpoint set_rank (room_ref : nat) (rank : string) (rooms : list EscapeRoom)
  : list EscapeRoom :=
  match rooms, room_ref with
  | [], _ => []
  | r :: rest, O => with_rank r rank :: rest
  | r :: rest, S k => r :: set_rank k rank rest
  end.

(** The second loop of [get_rooms]. *)
Fixpoint overlay (phase2 : list Phase2Room) (rooms : list EscapeRoom)
  : result (list EscapeRoom) :=
  match phase2 with
  | [] => Ok rooms
  | room :: rest =>
      '(room_name_english, _, company_name, _) <- parse_name (p2_name room) ;;
      room_ref <- find_room rooms company_name room_name_english company_name ;;
      overlay rest (set_rank room_ref (rank room) rooms)
  end.

Definition get_rooms (phase1 : list Phase1Room) (phase2 : list Phase2Room)
  : result (list EscapeRoom) :=
  rooms <- build_rooms phase1 ;;
  rooms <- remove_duplicate rooms ;;
  overlay phase2 rooms.

(** [import_2022] once the two listings have been extracted. *)
Definition import_2022 (text : string) (phase2 : list Phase2Room)
  : result (list EscapeRoom) :=
  phase1 <- read_phase1 text ;;
  get_rooms phase1 phase2.

(** ** Vocabulary of the statements *)

(** The organizer whose own name holds the separator. *)
Definition exception_organizer : string :=
  "Escape Stories - Live Escape Game Wuppertal".

(** The text of a line after the room name, for the exception organizer. *)
Definition exception_tail (loc : string) : string :=
  " - " ++ exception_organizer ++ " (" ++ loc ++ ")".

(** [s[n:]] *)
Fixpoint drop (n : nat) (s : string) : string :=
  match n, s with
  | O, _ => s
  | S _, EmptyString => EmptyString
  | S k, String _ s' => drop k s'
  end.

(** The pair on which the merger correlates the two listings. *)
Definition room_key (r : EscapeRoom) : string * string :=
  (room_name_english r, company_name r).

(** Number of rooms carrying a given (display name, organizer) pair. *)
Definition key_count (english_name company : string)
  (rooms : list EscapeRoom) : nat :=
  List.length (filter (same_key english_name company) rooms).

(** The pair a ranking row is correlated on. *)
Definition row_key (row : Phase2Room) : option (string * string) :=
  match parse_name (p2_name row) with
  | Ok (english_name, _, company, _) => Some (english_name, company)
  | Raise _ => None
  end.

(** Number of rooms a ranking row correlates with. *)
Definition row_count (rooms : list EscapeRoom) (row : Phase2Room) : nat :=
  match row_key row with
  | Some (english_name, company) => key_count english_name company rooms
  | None => 0
  end.

(** The effect of one ranking row, and of a whole table, on a single room. *)
Definition apply_row (r : EscapeRoom) (row : Phase2Room) : EscapeRoom :=
  match row_key row with
  | Some (english_name, company) =>
      if same_key english_name company r then with_rank r (rank row) else r
  | None => r
  end.

Definition apply_rows (phase2 : list Phase2Room) (r : EscapeRoom)
  : EscapeRoom :=
  fold_left apply_row phase2 r.

(** Whether a terse entry's name splits to the duplicate display name. *)
Definition splits_to_duplicate (room : Phase1Room) : bool :=
  match parse_name (name room) with
  | Ok (english_name, _, _, _) => String.eqb english_name duplicate_name
  | Raise _ => false
  end.

(** What [main] hands to the JSON writer: nothing when the import raised. *)
Definition main_output (phase1 : list Phase1Room) (phase2 : list Phase2Room)
  : option (list EscapeRoom) :=
  match get_rooms phase1 phase2 with
  | Ok rooms => Some rooms
  | Raise _ => None
  end.

(** A small listing used in the examples: the duplicate entry twice, and one
    other entry listed twice. *)
Definition sample_lines : list string :=
  ["Petra - The Lost Kingdom [Petra - El reino perdido] - Acme Co (North Town) (9) 👻🇬🇧🇪🇸";
   "Petra - The Lost Kingdom [Petra] - Acme Co (South Town) (4) 👻🇪🇸";
   "Twin Room - Beta Games (Springfield) (2) ☀🇬🇧";
   "Twin Room - Beta Games (Springfield) (1) ☀🇬🇧"].

Definition sample_phase1 : list Phase1Room := Eval vm_compute in
    match decode_lines sample_lines with Ok phase1 => phase1 | Raise _ => [] end.

Definition sample_all : list EscapeRoom := Eval vm_compute in
    match build_rooms sample_phase1 with Ok rooms => rooms | Raise _ => [] end.

Definition sample_rooms : list EscapeRoom := Eval vm_compute in
    match remove_duplicate sample_all with
    | Ok rooms => rooms
    | Raise _ => []
    end.

Definition sample_row (rank name : string) : Phase2Room :=
  mkPhase2Room rank name "9.1" "12" "40%" "3" "0" None.

Definition merged_row : Phase2Room :=
  sample_row "1" "Petra - The Lost Kingdom - Acme Co (North Town)".

(** The scenario line of the documentation, and the same entry in the layout
    the decoder reads (count and markers as the last two tokens). *)
Definition scenario_line : string :=
  "🆕 Spooky Room (12) 👻 🇬🇧🇫🇷 - Org (Townsville)".

Definition reshaped_scenario_line : string :=
  "Spooky Room - Org (Townsville) (12) 🆕👻🇬🇧🇫🇷".

(** The line-break character. *)
Definition newline : string := String "010" "".

(** The text of a paragraph: every line closed by a break, then a tail. *)
Fixpoint paragraph (lines : list string) (tail : string) : string :=
  match lines with
  | [] => tail
  | line :: rest => line ++ "<br/>" ++ paragraph rest tail
  end.

(** A character that occurs in none of the language markers. *)
Definition foreign (c : ascii) : bool :=
  forallb (fun marker => negb (mem_char c marker)) language_markers.

(** Pairwise distinct strings, as a test. *)
Fixpoint distinct (l : list string) : bool :=
  match l with
  | [] => true
  | x :: rest => negb (existsb (String.eqb x) rest) && distinct rest
  end.

(** * Properties *)

(** ** Facts about the built-ins *)

Section BuiltinFacts.

Lemma prefix_nil (s : string) : prefix "" s = true.
Proof. destruct s; reflexivity. Qed.

Lemma prefix_cons (a b : ascii) (s t : string) :
  prefix (String a s) (String b t) = Ascii.eqb a b && prefix s t.
Proof.
  simpl. destruct (ascii_dec a b) as [->|Hne].
  - now rewrite Ascii.eqb_refl.
  - apply Ascii.eqb_neq in Hne. now rewrite Hne.
Qed.

Lemma prefix_app (s t : string) : prefix s (s ++ t) = true.
Proof.
  induction s as [|a s IH]; [apply prefix_nil|].
  change (String a s ++ t) with (String a (s ++ t)).
  now rewrite prefix_cons, Ascii.eqb_refl.
Qed.

Lemma prefix_contains (sub s : string) :
  prefix sub s = true -> contains sub s = true.
Proof. destruct s; simpl; intros ->; reflexivity. Qed.

Lemma contains_app_r (sub a t : string) :
  contains sub t = true -> contains sub (a ++ t) = true.
Proof.
  intros H. induction a as [|c a IH]; [exact H|].
  change (String c a ++ t) with (String c (a ++ t)).
  cbn [contains]. rewrite IH. apply orb_true_r.
Qed.

Lemma contains_infix (s a b : string) : contains s (a ++ s ++ b) = true.
Proof. apply contains_app_r, prefix_contains, prefix_app. Qed.

Lemma cons_head_not_nil (c : ascii) (l : list string) : cons_head c l <> [].
Proof. destruct l; discriminate. Qed.

Lemma split_go_not_nil (sep : string) (k : nat) (s : string) :
  split_go sep k s <> [].
Proof.
  revert k. induction s as [|c s IH]; intros k; cbn [split_go].
  - discriminate.
  - destruct k; [|apply IH].
    destruct (prefix sep (String c s)); [discriminate|apply cons_head_not_nil].
Qed.

Lemma getitem_0_not_nil {A : Type} (l : list A) :
  l <> [] -> exists a, getitem l 0 = Ok a.
Proof. destruct l as [|a l]; [congruence|]. intros _. now exists a. Qed.

Lemma getitem_neg_1_not_nil {A : Type} (l : list A) :
  l <> [] -> exists a, getitem_neg l 1 = Ok a.
Proof.
  destruct l as [|a l]; [congruence|]. intros _.
  unfold getitem_neg, getitem. cbn [List.length Nat.leb].
  destruct (nth_error (a :: l) (S (List.length l) - 1)) as [x|] eqn:E.
  - now exists x.
  - apply nth_error_None in E. cbn [List.length] in E. lia.
Qed.

Lemma split_head (sep s : string) : exists h, getitem (split sep s) 0 = Ok h.
Proof. apply getitem_0_not_nil, split_go_not_nil. Qed.

Lemma split_last (sep s : string) :
  exists h, getitem_neg (split sep s) 1 = Ok h.
Proof. apply getitem_neg_1_not_nil, split_go_not_nil. Qed.

(** A string containing a one-character separator splits in at least two. *)
Lemma split_char_second (c : ascii) (s : string) :
  contains (String c "") s = true ->
  exists x, getitem (split (String c "") s) 1 = Ok x.
Proof.
  unfold split. induction s as [|a s IH]; [discriminate|].
  cbn [contains split_go]. rewrite prefix_cons, prefix_nil, andb_true_r.
  destruct (Ascii.eqb c a).
  - intros _. cbn [length Nat.sub].
    destruct (split_go (String c "") 0 s) as [|x l] eqn:E.
    + now apply split_go_not_nil in E.
    + now exists x.
  - cbn [orb]. intros H. destruct (IH H) as [x Hx].
    destruct (split_go (String c "") 0 s) as [|h [|y l]]; try discriminate.
    now exists x.
Qed.

End BuiltinFacts.

(** ** The splitter never raises *)

Lemma room_name_part_of_total (line : string) :
  exists part, room_name_part_of line = Ok part.
Proof.
  unfold room_name_part_of. destruct (contains organizer_exception line).
  - apply split_head.
  - eexists; reflexivity.
Qed.

Lemma parse_name_total (line : string) :
  exists parts, parse_name line = Ok parts.
Proof.
  unfold parse_name.
  destruct (room_name_part_of_total (normalise line)) as [part ->].
  cbn [bind].
  destruct (split_head "[" part) as [english ->]. cbn [bind].
  destruct (contains "[" part) eqn:Hb.
  - destruct (split_char_second _ _ Hb) as [x ->]. cbn [bind].
    destruct (contains duplicate_name (normalise line));
      match goal with
      | |- context [getitem_neg (split "(" ?s) 1] =>
          destruct (split_last "(" s) as [g ->]
      end; cbn [bind]; eexists; reflexivity.
  - cbn [bind].
    destruct (contains duplicate_name (normalise line));
      match goal with
      | |- context [getitem_neg (split "(" ?s) 1] =>
          destruct (split_last "(" s) as [g ->]
      end; cbn [bind]; eexists; reflexivity.
Qed.

(** ** The decoder *)

Lemma parse_terror_level_cases (line : string) :
  match parse_terror_level line with
  | Ok _ => has_rating_marker line = true
  | Raise e =>
      has_rating_marker line = false
      /\ e = AttributeError (terror_message line)
  end.
Proof.
  unfold parse_terror_level, has_rating_marker.
  destruct (contains "☀" line); [reflexivity|].
  destruct (contains "👻" line); [reflexivity|].
  destruct (contains "🔦" line); [reflexivity|].
  destruct (contains "😱" line); [reflexivity|now split].
Qed.

(** C2: [parse_terror_level] raises the decode error exactly when the line
    holds none of the four rating markers; the message quotes the line
    verbatim, no other exception is raised, and a line with at least one
    marker decodes to a level. *)
Theorem parse_terror_level_error_iff (line : string) :
  (parse_terror_level line = Raise (AttributeError (terror_message line))
   <-> has_rating_marker line = false)
  /\ (forall e, parse_terror_level line = Raise e ->
                e = AttributeError (terror_message line))
  /\ contains line (terror_message line) = true
  /\ (has_rating_marker line = true ->
      exists level, parse_terror_level line = Ok level).
Proof.
  unfold parse_terror_level, has_rating_marker.
  repeat split.
  - destruct (contains "☀" line); [discriminate|].
    destruct (contains "👻" line); [discriminate|].
    destruct (contains "🔦" line); [discriminate|].
    destruct (contains "😱" line); [discriminate|reflexivity].
  - destruct (contains "☀" line); [discriminate|].
    destruct (contains "👻" line); [discriminate|].
    destruct (contains "🔦" line); [discriminate|].
    destruct (contains "😱" line); [discriminate|reflexivity].
  - intros e.
    destruct (contains "☀" line); [discriminate|].
    destruct (contains "👻" line); [discriminate|].
    destruct (contains "🔦" line); [discriminate|].
    destruct (contains "😱" line); [discriminate|].
    intros H. now injection H as <-.
  - unfold terror_message. apply contains_infix.
  - destruct (contains "☀" line); [now exists NONE|].
    destruct (contains "👻" line); [now exists SPOOKY|].
    destruct (contains "🔦" line); [now exists PASSIVELY_SCARY|].
    destruct (contains "😱" line); [now exists ACTIVELY_SCARY|discriminate].
Qed.

Lemma parse_terror_level_error_iff_witness :
  (has_rating_marker "Foo - Org (Town) (3)" = false
   /\ parse_terror_level "Foo - Org (Town) (3)"
      = Raise (AttributeError
                 "Couldn't find a terror level in 'Foo - Org (Town) (3)'"))
  /\ (has_rating_marker "Foo - Org (Town) (3) 🔦🇬🇧" = true
      /\ exists level,
           parse_terror_level "Foo - Org (Town) (3) 🔦🇬🇧" = Ok level).
Proof.
  split; split.
  - reflexivity.
  - apply (proj1 (parse_terror_level_error_iff "Foo - Org (Town) (3)")).
    reflexivity.
  - reflexivity.
  - apply (proj2 (proj2 (proj2
             (parse_terror_level_error_iff "Foo - Org (Town) (3) 🔦🇬🇧")))).
    reflexivity.
Defined.

(** The whole line decoder raises [IndexError] before it looks for a rating
    when the line has fewer than two space-separated tokens. *)
Lemma decode_line_errors (line : string) :
  match decode_line line with
  | Raise IndexError => (List.length (split " " line) < 2)%nat
  | Raise (AttributeError msg) =>
      (2 <= List.length (split " " line))%nat
      /\ has_rating_marker line = false /\ msg = terror_message line
  | Raise _ => False
  | Ok _ =>
      (2 <= List.length (split " " line))%nat /\ has_rating_marker line = true
  end.
Proof.
  unfold decode_line, getitem_neg.
  destruct (2 <=? List.length (split " " line))%nat eqn:Hlen.
  - apply Nat.leb_le in Hlen. unfold getitem.
    destruct (nth_error (split " " line) (List.length (split " " line) - 2))
      as [token|] eqn:E.
    + cbn [bind]. pose proof (parse_terror_level_cases line) as Hcases.
      destruct (parse_terror_level line) as [e|level]; cbn [bind].
      * destruct Hcases as [Hm ->]. auto.
      * auto.
    + apply nth_error_None in E. lia.
  - apply Nat.leb_gt in Hlen. exact Hlen.
Qed.

(** C9: with several rating markers on a line the decoder does not fail; the
    first marker present in the order sun, ghost, torch, scream decides. *)
Theorem parse_terror_level_precedence (line : string) :
  (contains "☀" line = true -> parse_terror_level line = Ok NONE)
  /\ (contains "☀" line = false -> contains "👻" line = true ->
      parse_terror_level line = Ok SPOOKY)
  /\ (contains "☀" line = false -> contains "👻" line = false ->
      contains "🔦" line = true ->
      parse_terror_level line = Ok PASSIVELY_SCARY)
  /\ (contains "☀" line = false -> contains "👻" line = false ->
      contains "🔦" line = false -> contains "😱" line = true ->
      parse_terror_level line = Ok ACTIVELY_SCARY).
Proof.
  unfold parse_terror_level.
  repeat split; intros; 
    repeat match goal with H : contains _ line = _ |- _ => rewrite H; clear H end;
    reflexivity.
Qed.

Lemma parse_terror_level_precedence_witness :
  parse_terror_level "Foo - Org (Town) (3) 😱☀🔦" = Ok NONE
  /\ parse_terror_level "Foo - Org (Town) (3) 😱👻🔦" = Ok SPOOKY
  /\ parse_terror_level "Foo - Org (Town) (3) 😱🔦" = Ok PASSIVELY_SCARY
  /\ parse_terror_level "Foo - Org (Town) (3) 😱😱" = Ok ACTIVELY_SCARY.
Proof.
  split; [|split; [|split]].
  - apply (proj1 (parse_terror_level_precedence _)). reflexivity.
  - apply (proj1 (proj2 (parse_terror_level_precedence _))); reflexivity.
  - apply (proj1 (proj2 (proj2 (parse_terror_level_precedence _))));
      reflexivity.
  - apply (proj2 (proj2 (proj2 (parse_terror_level_precedence _))));
      reflexivity.
Defined.

(** [parse_languages] is one independent containment test per table row. *)
Lemma parse_languages_table (line : string) :
  parse_languages line
  = flat_map (fun entry => yield_if (fst entry) (snd entry) line)
      language_table.
Proof.
  unfold parse_languages, language_table. cbn [flat_map fst snd].
  now rewrite app_nil_r.
Qed.

Lemma flat_map_agree {A B : Type} (f g : A -> list B) (l : list A) :
  (forall a, In a l -> f a = g a) -> flat_map f l = flat_map g l.
Proof.
  induction l as [|a l IH]; intros H; [reflexivity|].
  cbn [flat_map]. rewrite (H a (or_introl eq_refl)), IH; [reflexivity|].
  intros b Hb. apply H. now right.
Qed.

(** C6: the order in which flags are written changes the decoded languages.
    Both lines below are the same entry with the English and the Greek flag
    in the marker token; written in this order the two flags hold the
    Bulgarian marker across their boundary, and Bulgarian is decoded as well.
    Writing the English flag twice has the same effect. *)
Theorem adjacent_flags_change_languages :
  decode_line ("Foo - Org (Town) (3) ☀" ++ "🇬🇧" ++ "🇬🇷")
  = Ok (mkPhase1Room "Foo - Org (Town)" (Str "3") false NONE
          ["English"; "Bulgarian"; "Greek"])
  /\ decode_line ("Foo - Org (Town) (3) ☀" ++ "🇬🇷" ++ "🇬🇧")
     = Ok (mkPhase1Room "Foo - Org (Town)" (Str "3") false NONE
             ["English"; "Greek"])
  /\ parse_languages ("Foo - Org (Town) (3) ☀" ++ "🇬🇧" ++ "🇬🇷")
     <> parse_languages ("Foo - Org (Town) (3) ☀" ++ "🇬🇷" ++ "🇬🇧")
  /\ contains "🇧🇬" ("🇬🇧" ++ "🇬🇷") = true
  /\ contains "🇧🇬" "🇬🇧" = false
  /\ contains "🇧🇬" "🇬🇷" = false
  /\ decode_line ("Foo - Org (Town) (3) ☀" ++ "🇬🇧" ++ "🇬🇧")
     = Ok (mkPhase1Room "Foo - Org (Town)" (Str "3") false NONE
             ["English"; "Bulgarian"]).
Proof.
  split; [vm_compute; reflexivity|].
  split; [vm_compute; reflexivity|].
  split; [vm_compute; discriminate|].
  split; [vm_compute; reflexivity|].
  split; [vm_compute; reflexivity|].
  split; vm_compute; reflexivity.
Qed.

(** Containment is by substring, so two adjacent flags can spell a third
    marker across their boundary: the order of flags is not always
    irrelevant. *)
Lemma parse_languages_adjacent_flags :
  parse_languages "🇬🇧🇬🇷" = ["English"; "Bulgarian"; "Greek"]
  /\ parse_languages "🇬🇷🇬🇧" = ["English"; "Greek"].
Proof. split; reflexivity. Qed.

(** C5: whenever a line decodes, the name is the line's tokens without the
    last two joined by single spaces, and the count is the text of the
    second-to-last token without surrounding parentheses.  The count stays a
    string: it is never an integer. *)
Theorem decode_line_name_and_count (line : string) (room : Phase1Room) :
  decode_line line = Ok room ->
  name room = join " " (slice_to_neg (split " " line) 2)
  /\ (exists token,
         getitem_neg (split " " line) 2 = Ok token
         /\ nominations room = Str (strip "()" token))
  /\ (forall n, nominations room <> Int n).
Proof.
  unfold decode_line. intros H.
  destruct (getitem_neg (split " " line) 2) as [|token]; [discriminate|].
  cbn [bind] in H. destruct (parse_terror_level line); [discriminate|].
  cbn [bind] in H. injection H as <-. cbn [name nominations].
  split; [reflexivity|]. split; [now exists token|]. discriminate.
Qed.

Lemma decode_line_name_and_count_witness :
  name (mkPhase1Room "Foo - Org (Town)" (Str "12") false NONE ["English"])
  = "Foo - Org (Town)"
  /\ (exists token,
         getitem_neg (split " " "Foo - Org (Town) (12) ☀🇬🇧") 2 = Ok token
         /\ Str "12" = Str (strip "()" token))
  /\ (forall n, Str "12" <> Int n).
Proof.
  exact (decode_line_name_and_count "Foo - Org (Town) (12) ☀🇬🇧"
           (mkPhase1Room "Foo - Org (Town)" (Str "12") false NONE ["English"])
           eq_refl).
Defined.

(** ** The splitter on the documented examples *)

(** C3: on ["Foo Bar [Foo Baz] - Acme Co (Springfield)"] the splitter keeps the
    blank before the bracket in the display name. *)
Theorem parse_name_bracket_example :
  parse_name "Foo Bar [Foo Baz] - Acme Co (Springfield)"
  = Ok ("Foo Bar ", Some "Foo Baz", "Acme Co", "Springfield")
  /\ parse_name "Foo Bar [Foo Baz] - Acme Co (Springfield)"
     <> Ok ("Foo Bar", Some "Foo Baz", "Acme Co", "Springfield").
Proof. split; [reflexivity|discriminate]. Qed.

(** C4, as stated, fails: on the scenario line the count token is not 12 and
    the decoded name does not split into the expected parts. *)
Lemma scenario_line_counterexample :
  ~ (exists room original,
        decode_line scenario_line = Ok room
        /\ (nominations room = Int 12%Z \/ nominations room = Str "12")
        /\ new room = true
        /\ terror_level room = SPOOKY
        /\ languages room = ["English"; "French"]
        /\ parse_name (name room)
           = Ok ("Spooky Room", original, "Org", "Townsville")).
Proof.
  intros (room & original & Hdec & Hcount & _).
  vm_compute in Hdec. injection Hdec as <-. cbn [nominations] in Hcount.
  destruct Hcount; discriminate.
Qed.

(** C4, amended: the decoder takes the last two tokens of the line as count
    and marker tokens.  On the scenario line that makes the count text "Org"
    and leaves a name without separator; on the same entry written in the
    decoder's layout the expected fields come out. *)
Theorem scenario_line_decoding :
  decode_line scenario_line
  = Ok (mkPhase1Room "🆕 Spooky Room (12) 👻 🇬🇧🇫🇷 -" (Str "Org") true SPOOKY
          ["English"; "French"])
  /\ parse_name "🆕 Spooky Room (12) 👻 🇬🇧🇫🇷 -"
     = Ok ("", None, "Spooky Room (12) 👻 🇬🇧🇫🇷 -", "12) 👻 🇬🇧🇫🇷 -")
  /\ decode_line reshaped_scenario_line
     = Ok (mkPhase1Room "Spooky Room - Org (Townsville)" (Str "12") true SPOOKY
             ["English"; "French"])
  /\ parse_name "Spooky Room - Org (Townsville)"
     = Ok ("Spooky Room", None, "Org", "Townsville").
Proof. split; [|split; [|split]]; reflexivity. Qed.

(** ** The merger *)

Section MergerFacts.

Lemma new_room_total (room : Phase1Room) : exists r, new_room room = Ok r.
Proof.
  unfold new_room.
  destruct (parse_name_total (name room)) as [[[[e o] c] l] ->].
  cbn [bind]. eexists; reflexivity.
Qed.

Lemma build_rooms_total (phase1 : list Phase1Room) :
  exists rooms, build_rooms phase1 = Ok rooms.
Proof.
  induction phase1 as [|room rest [rooms IH]]; [now exists []|].
  cbn [build_rooms]. destruct (new_room_total room) as [r ->].
  rewrite IH. cbn [bind]. eexists; reflexivity.
Qed.

(** Every built room comes from one terse entry, in document order. *)
Lemma build_rooms_spec (phase1 : list Phase1Room) (rooms : list EscapeRoom) :
  build_rooms phase1 = Ok rooms ->
  Forall2 (fun room r => new_room room = Ok r) phase1 rooms.
Proof.
  revert rooms. induction phase1 as [|room rest IH]; intros rooms H.
  - injection H as <-. constructor.
  - cbn [build_rooms] in H.
    destruct (new_room room) as [|r] eqn:Hr; [discriminate|].
    destruct (build_rooms rest) as [|rs]; [discriminate|].
    cbn [bind] in H. injection H as <-. constructor; auto.
Qed.

Lemma value_eqb_refl (v : value) : value_eqb v v = true.
Proof. destruct v; cbn; [apply Z.eqb_refl|apply String.eqb_refl]. Qed.

Lemma option_eqb_refl (o : option string) : option_eqb o o = true.
Proof. destruct o; cbn; [apply String.eqb_refl|reflexivity]. Qed.

Lemma strings_eqb_refl (l : list string) : strings_eqb l l = true.
Proof.
  induction l as [|s l IH]; [reflexivity|].
  cbn [strings_eqb]. now rewrite String.eqb_refl.
Qed.

Lemma TerrorLevel_eqb_refl (t : TerrorLevel) : TerrorLevel_eqb t t = true.
Proof. now destruct t. Qed.

Lemma EscapeRoom_eqb_refl (r : EscapeRoom) : EscapeRoom_eqb r r = true.
Proof.
  unfold EscapeRoom_eqb.
  now rewrite !String.eqb_refl, option_eqb_refl, strings_eqb_refl,
    TerrorLevel_eqb_refl, value_eqb_refl.
Qed.

Lemma EscapeRoom_eqb_duplicate (r x : EscapeRoom) :
  is_duplicate r = false -> is_duplicate x = true -> EscapeRoom_eqb r x = false.
Proof.
  unfold is_duplicate, EscapeRoom_eqb. intros Hr Hx.
  apply String.eqb_eq in Hx. rewrite Hx, Hr. reflexivity.
Qed.

Lemma filter_none {A : Type} (p : A -> bool) (l : list A) :
  Forall (fun a => p a = false) l -> filter p l = [].
Proof.
  induction 1 as [|a l Ha _ IH]; [reflexivity|].
  cbn [filter]. now rewrite Ha.
Qed.

Lemma index_of_first (pre post : list EscapeRoom) (x : EscapeRoom) :
  Forall (fun r => is_duplicate r = false) pre ->
  is_duplicate x = true ->
  index_of x (pre ++ x :: post) = Ok (List.length pre).
Proof.
  intros Hpre Hx. induction Hpre as [|r pre Hr _ IH].
  - cbn [app index_of]. now rewrite EscapeRoom_eqb_refl.
  - cbn [app index_of List.length].
    rewrite (EscapeRoom_eqb_duplicate r x Hr Hx), IH. reflexivity.
Qed.

Lemma pop_middle (pre post : list EscapeRoom) (x : EscapeRoom) :
  pop (pre ++ x :: post) (List.length pre) = Ok (pre ++ post)%list.
Proof.
  unfold pop.
  assert ((List.length pre <? List.length (pre ++ x :: post))%nat = true) as ->.
  { apply Nat.ltb_lt. rewrite length_app. cbn [List.length]. lia. }
  rewrite firstn_app, Nat.sub_diag, firstn_all, firstn_O, app_nil_r.
  replace (S (List.length pre)) with (List.length pre + 1)%nat by lia.
  rewrite skipn_app, skipn_all2 by lia.
  replace (List.length pre + 1 - List.length pre)%nat with 1%nat by lia.
  reflexivity.
Qed.

(** The collapse removes the first room bearing the duplicate name. *)
Lemma remove_duplicate_first (pre post : list EscapeRoom) (x : EscapeRoom) :
  Forall (fun r => is_duplicate r = false) pre ->
  is_duplicate x = true ->
  remove_duplicate (pre ++ x :: post) = Ok (pre ++ post)%list.
Proof.
  intros Hpre Hx. unfold remove_duplicate.
  rewrite filter_app, (filter_none _ _ Hpre). cbn [app filter].
  rewrite Hx. cbn [getitem nth_error bind].
  rewrite (index_of_first pre post x Hpre Hx). cbn [bind].
  apply pop_middle.
Qed.

(** Without such a room the collapse raises [IndexError]. *)
Lemma remove_duplicate_absent (rooms : list EscapeRoom) :
  Forall (fun r => is_duplicate r = false) rooms ->
  remove_duplicate rooms = Raise IndexError.
Proof.
  intros H. unfold remove_duplicate. now rewrite (filter_none _ _ H).
Qed.

Lemma positions_from_length (p : EscapeRoom -> bool) (i : nat)
  (rooms : list EscapeRoom) :
  List.length (positions_from p i rooms) = List.length (filter p rooms).
Proof.
  revert i. induction rooms as [|r rooms IH]; intros i; [reflexivity|].
  cbn [positions_from filter]. destruct (p r); cbn [List.length]; now rewrite IH.
Qed.

(** The first position found holds a room with the queried key. *)
Lemma positions_from_head (p : EscapeRoom -> bool) (i j : nat)
  (rooms : list EscapeRoom) (others : list nat) :
  positions_from p i rooms = j :: others ->
  exists k r, j = (i + k)%nat /\ nth_error rooms k = Some r /\ p r = true.
Proof.
  revert i. induction rooms as [|r rooms IH]; intros i H; [discriminate|].
  cbn [positions_from] in H. destruct (p r) eqn:Hp.
  - injection H as <- _. exists 0%nat, r. rewrite Nat.add_0_r. auto.
  - destruct (IH _ H) as (k & r' & -> & Hk & Hr').
    exists (S k), r'. repeat split; trivial. lia.
Qed.

Lemma find_room_unique (rooms : list EscapeRoom)
  (company english_name copmany_name : string) :
  key_count english_name company rooms = 1%nat ->
  exists i r,
    find_room rooms company english_name copmany_name = Ok i
    /\ nth_error rooms i = Some r
    /\ same_key english_name company r = true.
Proof.
  unfold key_count, find_room. intros H.
  rewrite positions_from_length, H. cbn [Nat.eqb].
  destruct (positions_from (same_key english_name company) 0 rooms)
    as [|j others] eqn:E.
  - apply (f_equal (@List.length nat)) in E.
    rewrite positions_from_length, H in E. discriminate.
  - destruct (positions_from_head _ _ _ _ _ E) as (k & r & -> & Hk & Hr).
    exists k, r. cbn [getitem nth_error Nat.add]. auto.
Qed.

Lemma find_room_ambiguous (rooms : list EscapeRoom)
  (company english_name copmany_name : string) :
  key_count english_name company rooms <> 1%nat ->
  find_room rooms company english_name copmany_name
  = Raise (AssertionError
             (correlation_message (key_count english_name company rooms)
                english_name company)).
Proof.
  unfold key_count, find_room. intros H.
  rewrite positions_from_length.
  destruct (Nat.eqb_spec
              (List.length (filter (same_key english_name company) rooms)) 1);
    [contradiction|reflexivity].
Qed.

Lemma set_rank_keys (i : nat) (rank : string) (rooms : list EscapeRoom) :
  map room_key (set_rank i rank rooms) = map room_key rooms.
Proof.
  revert i. induction rooms as [|r rooms IH]; intros [|i]; try reflexivity.
  cbn [set_rank map]. now rewrite IH.
Qed.

Lemma key_count_keys (english_name company : string)
  (rooms rooms' : list EscapeRoom) :
  map room_key rooms = map room_key rooms' ->
  key_count english_name company rooms
  = key_count english_name company rooms'.
Proof.
  unfold key_count. revert rooms'.
  induction rooms as [|r rooms IH]; intros [|r' rooms'] H; try discriminate;
    [reflexivity|].
  cbn [map] in H. unfold room_key at 1 2 in H. injection H as He Hc Hrest.
  assert (same_key english_name company r = same_key english_name company r')
    as Hsame by (unfold same_key; now rewrite He, Hc).
  cbn [filter]. rewrite Hsame.
  destruct (same_key english_name company r'); cbn [List.length];
    now rewrite (IH _ Hrest).
Qed.

Lemma row_count_keys (rooms rooms' : list EscapeRoom) (row : Phase2Room) :
  map room_key rooms = map room_key rooms' ->
  row_count rooms row = row_count rooms' row.
Proof.
  intros H. unfold row_count.
  destruct (row_key row) as [[e c]|]; [|reflexivity].
  now apply key_count_keys.
Qed.

(** The ranking loop only touches rank labels. *)
Lemma overlay_keys (phase2 : list Phase2Room) (rooms out : list EscapeRoom) :
  overlay phase2 rooms = Ok out -> map room_key out = map room_key rooms.
Proof.
  revert rooms. induction phase2 as [|row rest IH]; intros rooms H.
  - now injection H as <-.
  - cbn [overlay] in H.
    destruct (parse_name (p2_name row)) as [|[[[e o] c] l]]; [discriminate|].
    cbn [bind] in H.
    destruct (find_room rooms c e c) as [|i]; [discriminate|].
    cbn [bind] in H. rewrite (IH _ H). apply set_rank_keys.
Qed.

Lemma row_key_parse (row : Phase2Room) :
  exists e o c l,
    parse_name (p2_name row) = Ok (e, o, c, l) /\ row_key row = Some (e, c).
Proof.
  unfold row_key.
  destruct (parse_name_total (p2_name row)) as [[[[e o] c] l] H].
  exists e, o, c, l. now rewrite H.
Qed.

(** One iteration of the ranking loop. *)
Lemma overlay_step (row : Phase2Room) (rest : list Phase2Room)
  (rooms : list EscapeRoom) (e c : string) :
  row_key row = Some (e, c) ->
  overlay (row :: rest) rooms
  = (room_ref <- find_room rooms c e c ;;
     overlay rest (set_rank room_ref (rank row) rooms)).
Proof.
  intros Hk. destruct (row_key_parse row) as (e' & o & c' & l & Hp & Hk').
  rewrite Hk in Hk'. injection Hk' as <- <-.
  cbn [overlay]. now rewrite Hp.
Qed.

Lemma filter_length_zero {A : Type} (p : A -> bool) (l : list A) :
  List.length (filter p l) = 0%nat -> Forall (fun a => p a = false) l.
Proof.
  induction l as [|a l IH]; [constructor|].
  cbn [filter]. destruct (p a) eqn:Hp; [discriminate|].
  intros H. constructor; auto.
Qed.

Lemma filter_length_nth {A : Type} (p : A -> bool) (l : list A) (i : nat)
  (a : A) :
  nth_error l i = Some a -> p a = true -> (1 <= List.length (filter p l))%nat.
Proof.
  revert i. induction l as [|x l IH]; intros [|i] H Hp; try discriminate.
  - injection H as ->. cbn [filter]. rewrite Hp. cbn [List.length]. lia.
  - cbn [filter]. specialize (IH _ H Hp).
    destruct (p x); cbn [List.length]; lia.
Qed.

Lemma map_unless {A : Type} (p : A -> bool) (g : A -> A) (l : list A) :
  Forall (fun a => p a = false) l ->
  map (fun x => if p x then g x else x) l = l.
Proof.
  induction 1 as [|y l Hy _ IHl]; [reflexivity|].
  cbn [map]. now rewrite Hy, IHl.
Qed.

(** When exactly one room has the key, assigning through the reference is
    the same as relabelling every room with that key. *)
Lemma set_rank_unique (e c rank : string) (rooms : list EscapeRoom) (i : nat)
  (r : EscapeRoom) :
  key_count e c rooms = 1%nat ->
  nth_error rooms i = Some r ->
  same_key e c r = true ->
  set_rank i rank rooms
  = map (fun x => if same_key e c x then with_rank x rank else x) rooms.
Proof.
  unfold key_count. revert i.
  induction rooms as [|x rooms IH]; intros [|i] Hc Hi Hr; try discriminate.
  - injection Hi as ->. cbn [filter] in Hc. rewrite Hr in Hc.
    cbn [List.length] in Hc. injection Hc as Hc.
    apply filter_length_zero in Hc.
    cbn [set_rank map]. rewrite Hr. f_equal. symmetry.
    now apply map_unless.
  - cbn [nth_error] in Hi. cbn [filter] in Hc.
    pose proof (filter_length_nth _ _ _ _ Hi Hr) as Hge.
    destruct (same_key e c x) eqn:Hx; cbn [List.length] in Hc; [lia|].
    cbn [set_rank map]. rewrite Hx. f_equal. now apply IH.
Qed.

Lemma apply_rows_cons (row : Phase2Room) (rest : list Phase2Room)
  (r : EscapeRoom) :
  apply_rows (row :: rest) r = apply_rows rest (apply_row r row).
Proof. reflexivity. Qed.

(** The ranking loop, when it returns, has relabelled each room with the rank
    of the last row bearing its key, and left the other rooms alone. *)
Lemma overlay_apply_rows (phase2 : list Phase2Room)
  (rooms out : list EscapeRoom) :
  overlay phase2 rooms = Ok out -> out = map (apply_rows phase2) rooms.
Proof.
  revert rooms. induction phase2 as [|row rest IH]; intros rooms H.
  - injection H as <-. symmetry. apply map_id.
  - destruct (row_key_parse row) as (e & o & c & l & _ & Hk).
    rewrite (overlay_step _ _ _ _ _ Hk) in H.
    destruct (Nat.eq_dec (key_count e c rooms) 1) as [Hone|Hne].
    + destruct (find_room_unique rooms c e c Hone) as (i & r & Hf & Hi & Hr).
      rewrite Hf in H. cbn [bind] in H.
      rewrite (IH _ H), (set_rank_unique _ _ _ _ _ _ Hone Hi Hr), map_map.
      apply map_ext. intros x. rewrite apply_rows_cons.
      unfold apply_row. now rewrite Hk.
    + rewrite (find_room_ambiguous rooms c e c Hne) in H. discriminate.
Qed.

(** The ranking loop returns exactly when every row has a single match. *)
Lemma overlay_returns_iff (phase2 : list Phase2Room)
  (rooms : list EscapeRoom) :
  (exists out, overlay phase2 rooms = Ok out)
  <-> Forall (fun row => row_count rooms row = 1%nat) phase2.
Proof.
  revert rooms. induction phase2 as [|row rest IH]; intros rooms.
  - split; [constructor|]. intros _. now exists rooms.
  - destruct (row_key_parse row) as (e & o & c & l & _ & Hk).
    rewrite (overlay_step _ _ _ _ _ Hk).
    destruct (Nat.eq_dec (key_count e c rooms) 1) as [Hone|Hne].
    + destruct (find_room_unique rooms c e c Hone) as (i & r & Hf & _).
      rewrite Hf. cbn [bind]. rewrite IH. split.
      * intros Hall. constructor.
        -- unfold row_count. now rewrite Hk.
        -- eapply Forall_impl; [|exact Hall]. intros row' Hrow'.
           rewrite <- Hrow'. symmetry. apply row_count_keys, set_rank_keys.
      * intros Hall. inversion Hall as [|? ? _ Hrest]; subst.
        eapply Forall_impl; [|exact Hrest]. intros row' Hrow'.
        rewrite <- Hrow'. apply row_count_keys, set_rank_keys.
    + rewrite (find_room_ambiguous rooms c e c Hne). cbn [bind]. split.
      * intros [out Hout]. discriminate.
      * intros Hall. inversion Hall as [|? ? Hrow _]; subst.
        unfold row_count in Hrow. rewrite Hk in Hrow. contradiction.
Qed.

(** The first row without a single match stops the loop. *)
Lemma overlay_first_failure (pre post : list Phase2Room) (row : Phase2Room)
  (rooms : list EscapeRoom) (e c : string) :
  Forall (fun r => row_count rooms r = 1%nat) pre ->
  row_key row = Some (e, c) ->
  key_count e c rooms <> 1%nat ->
  overlay (pre ++ row :: post) rooms
  = Raise (AssertionError (correlation_message (key_count e c rooms) e c)).
Proof.
  intros Hpre Hk Hne. revert rooms Hpre Hne.
  induction pre as [|row0 pre IH]; intros rooms Hpre Hne.
  - cbn [app]. rewrite (overlay_step _ _ _ _ _ Hk).
    now rewrite (find_room_ambiguous rooms c e c Hne).
  - inversion Hpre as [|? ? Hrow0 Hrest]; subst.
    destruct (row_key_parse row0) as (e0 & o0 & c0 & l0 & _ & Hk0).
    cbn [app]. rewrite (overlay_step _ _ _ _ _ Hk0).
    unfold row_count in Hrow0. rewrite Hk0 in Hrow0.
    destruct (find_room_unique rooms c0 e0 c0 Hrow0) as (i & r & Hf & _).
    rewrite Hf. cbn [bind].
    rewrite (key_count_keys e c rooms (set_rank i (rank row0) rooms))
      by (symmetry; apply set_rank_keys).
    apply IH.
    + eapply Forall_impl; [|exact Hrest]. intros row' Hrow'.
      rewrite <- Hrow'. apply row_count_keys, set_rank_keys.
    + rewrite <- (key_count_keys e c rooms) by (symmetry; apply set_rank_keys).
      exact Hne.
Qed.

End MergerFacts.

Lemma prefix_refl (s : string) : prefix s s = true.
Proof.
  induction s as [|a s IH]; [reflexivity|].
  now rewrite prefix_cons, Ascii.eqb_refl.
Qed.

(** The assertion message spells out the count and the queried pair. *)
Lemma correlation_message_reports (n : nat) (e c : string) :
  contains (str_of_nat n) (correlation_message n e c) = true
  /\ contains e (correlation_message n e c) = true
  /\ contains c (correlation_message n e c) = true.
Proof.
  unfold correlation_message. split; [|split].
  - apply contains_infix.
  - do 3 apply contains_app_r. apply prefix_contains, prefix_app.
  - do 5 apply contains_app_r. apply prefix_contains, prefix_refl.
Qed.

Lemma new_room_duplicate (room : Phase1Room) (r : EscapeRoom) :
  new_room room = Ok r -> is_duplicate r = splits_to_duplicate room.
Proof.
  unfold new_room, splits_to_duplicate, is_duplicate.
  destruct (parse_name (name room)) as [|[[[e o] c] l]]; [discriminate|].
  cbn [bind]. intros H. now injection H as <-.
Qed.

Lemma build_rooms_duplicates (phase1 : list Phase1Room)
  (rooms : list EscapeRoom) :
  build_rooms phase1 = Ok rooms ->
  Forall (fun room => splits_to_duplicate room = false) phase1 ->
  Forall (fun r => is_duplicate r = false) rooms.
Proof.
  intros H. apply build_rooms_spec in H.
  induction H as [|room r phase1 rooms Hr _ IH]; intros Hall; [constructor|].
  inversion Hall as [|? ? Hroom Hrest]; subst. constructor; auto.
  now rewrite (new_room_duplicate _ _ Hr).
Qed.

Lemma build_rooms_app (a b : list Phase1Room) (ra rb : list EscapeRoom) :
  build_rooms a = Ok ra -> build_rooms b = Ok rb ->
  build_rooms (a ++ b) = Ok (ra ++ rb)%list.
Proof.
  revert ra. induction a as [|room a IH]; intros ra Ha Hb.
  - injection Ha as <-. exact Hb.
  - cbn [app build_rooms] in *.
    destruct (new_room room) as [|r]; [discriminate|].
    destruct (build_rooms a) as [|ra']; [discriminate|].
    cbn [bind] in *. injection Ha as <-.
    now rewrite (IH _ eq_refl Hb).
Qed.

(** C10: the collapse is unconditional.  A listing in which no entry splits to
    the duplicate display name makes [get_rooms] raise [IndexError], whatever
    the ranking table, so nothing is written; otherwise the first such entry
    in document order is the one left out of the merge. *)
Theorem duplicate_collapse_unconditional :
  (forall phase1 phase2,
      Forall (fun room => splits_to_duplicate room = false) phase1 ->
      get_rooms phase1 phase2 = Raise IndexError
      /\ main_output phase1 phase2 = None)
  /\ (forall before entry after phase2,
         Forall (fun room => splits_to_duplicate room = false) before ->
         splits_to_duplicate entry = true ->
         exists rooms_before rooms_after,
           build_rooms before = Ok rooms_before
           /\ build_rooms after = Ok rooms_after
           /\ get_rooms (before ++ entry :: after) phase2
              = overlay phase2 (rooms_before ++ rooms_after)).
Proof.
  split.
  - intros phase1 phase2 Hall.
    assert (get_rooms phase1 phase2 = Raise IndexError) as H.
    { unfold get_rooms.
      destruct (build_rooms_total phase1) as [rooms Hb]. rewrite Hb.
      cbn [bind].
      now rewrite (remove_duplicate_absent _
                     (build_rooms_duplicates _ _ Hb Hall)). }
    split; [exact H|]. unfold main_output. now rewrite H.
  - intros before entry after phase2 Hbefore Hentry.
    destruct (build_rooms_total before) as [rb Hrb].
    destruct (build_rooms_total after) as [ra Hra].
    destruct (new_room_total entry) as [x Hx].
    exists rb, ra. repeat split; trivial.
    assert (build_rooms (entry :: after) = Ok (x :: ra)) as Hxa.
    { cbn [build_rooms]. now rewrite Hx, Hra. }
    unfold get_rooms. rewrite (build_rooms_app _ _ _ _ Hrb Hxa).
    cbn [bind]. rewrite remove_duplicate_first; [reflexivity| |].
    + exact (build_rooms_duplicates _ _ Hrb Hbefore).
    + now rewrite (new_room_duplicate _ _ Hx).
Qed.

Lemma duplicate_collapse_unconditional_witness :
  get_rooms
    [mkPhase1Room "Twin Room - Beta Games (Springfield)" (Str "2") false NONE
       ["English"]]
    [sample_row "1" "Twin Room - Beta Games (Springfield)"]
  = Raise IndexError.
Proof.
  apply (proj1 duplicate_collapse_unconditional).
  repeat constructor.
Defined.

(** C1: once the merged entries exist, [get_rooms] returns exactly when every
    ranking row has one entry with its (display name, organizer) pair; the
    first row with no or several such entries raises the assertion, whose
    message gives the count and the queried pair, and nothing is written.
    When it returns, each entry carries the rank of the last row with its
    pair, and entries without a row keep their label. *)
Theorem get_rooms_correlation (phase1 : list Phase1Room)
  (phase2 : list Phase2Room) (all rooms : list EscapeRoom) :
  build_rooms phase1 = Ok all ->
  remove_duplicate all = Ok rooms ->
  ((exists out, get_rooms phase1 phase2 = Ok out)
   <-> Forall (fun row => row_count rooms row = 1%nat) phase2)
  /\ (forall pre row post e c,
         phase2 = (pre ++ row :: post)%list ->
         Forall (fun r => row_count rooms r = 1%nat) pre ->
         row_key row = Some (e, c) ->
         key_count e c rooms <> 1%nat ->
         let msg := correlation_message (key_count e c rooms) e c in
         get_rooms phase1 phase2 = Raise (AssertionError msg)
         /\ main_output phase1 phase2 = None
         /\ contains (str_of_nat (key_count e c rooms)) msg = true
         /\ contains e msg = true
         /\ contains c msg = true)
  /\ (forall out,
         get_rooms phase1 phase2 = Ok out ->
         out = map (apply_rows phase2) rooms).
Proof.
  intros Hall Hrooms.
  assert (get_rooms phase1 phase2 = overlay phase2 rooms) as Hget.
  { unfold get_rooms. rewrite Hall. cbn [bind]. now rewrite Hrooms. }
  rewrite Hget. split; [apply overlay_returns_iff|]. split.
  - intros pre row post e c -> Hpre Hk Hne msg.
    assert (get_rooms phase1 (pre ++ row :: post) = Raise (AssertionError msg))
      as H.
    { rewrite Hget. now apply overlay_first_failure. }
    split; [now rewrite <- Hget|].
    split; [unfold main_output; now rewrite H|].
    apply correlation_message_reports.
  - apply overlay_apply_rows.
Qed.

Lemma get_rooms_correlation_witness :
  decode_lines sample_lines = Ok sample_phase1
  /\ get_rooms sample_phase1
       [merged_row; sample_row "2" "Twin Rooms - Beta Games (Springfield)";
        sample_row "3" "Twin Room - Beta Games (Springfield)"]
     = Raise (AssertionError
                "Found 0 with name Twin Rooms and company Beta Games")
  /\ get_rooms sample_phase1
       [merged_row; sample_row "3" "Twin Room - Beta Games (Springfield)"]
     = Raise (AssertionError
                "Found 2 with name Twin Room and company Beta Games").
Proof.
  split; [vm_compute; reflexivity|]. split.
  - refine (proj1
      (proj1 (proj2 (get_rooms_correlation sample_phase1 _ sample_all
                       sample_rooms _ _))
         [merged_row] (sample_row "2" "Twin Rooms - Beta Games (Springfield)")
         [sample_row "3" "Twin Room - Beta Games (Springfield)"]
         "Twin Rooms" "Beta Games" eq_refl _ _ _)).
    + vm_compute. reflexivity.
    + vm_compute. reflexivity.
    + constructor; [vm_compute; reflexivity|constructor].
    + vm_compute. reflexivity.
    + vm_compute. discriminate.
  - refine (proj1
      (proj1 (proj2 (get_rooms_correlation sample_phase1 _ sample_all
                       sample_rooms _ _))
         [merged_row] (sample_row "3" "Twin Room - Beta Games (Springfield)")
         [] "Twin Room" "Beta Games" eq_refl _ _ _)).
    + vm_compute. reflexivity.
    + vm_compute. reflexivity.
    + constructor; [vm_compute; reflexivity|constructor].
    + vm_compute. reflexivity.
    + vm_compute. discriminate.
Defined.

Lemma same_key_not_duplicate (c : string) (r : EscapeRoom) :
  is_duplicate r = false -> same_key duplicate_name c r = false.
Proof. unfold is_duplicate, same_key. now intros ->. Qed.

Lemma same_key_duplicate (r : EscapeRoom) :
  is_duplicate r = true -> same_key duplicate_name (company_name r) r = true.
Proof.
  unfold is_duplicate, same_key. intros ->. now rewrite String.eqb_refl.
Qed.

(** A single row for the duplicate entry relabels the surviving entry. *)
Lemma overlay_single_duplicate (front back : list EscapeRoom)
  (survivor : EscapeRoom) (row : Phase2Room) :
  Forall (fun r => is_duplicate r = false) front ->
  Forall (fun r => is_duplicate r = false) back ->
  is_duplicate survivor = true ->
  row_key row = Some (duplicate_name, company_name survivor) ->
  overlay [row] (front ++ survivor :: back)
  = Ok (front ++ with_rank survivor (rank row) :: back)%list.
Proof.
  intros Hfront Hback Hs Hk.
  set (c := company_name survivor) in *.
  assert (Forall (fun r => same_key duplicate_name c r = false) front) as Hf
    by (eapply Forall_impl; [|exact Hfront];
        intros r; apply same_key_not_duplicate).
  assert (Forall (fun r => same_key duplicate_name c r = false) back) as Hb
    by (eapply Forall_impl; [|exact Hback];
        intros r; apply same_key_not_duplicate).
  pose proof (same_key_duplicate _ Hs) as Hkey. fold c in Hkey.
  assert (key_count duplicate_name c (front ++ survivor :: back) = 1%nat)
    as Hone.
  { unfold key_count. rewrite filter_app, (filter_none _ _ Hf).
    cbn [app filter]. now rewrite Hkey, (filter_none _ _ Hb). }
  rewrite (overlay_step _ _ _ _ _ Hk).
  destruct (find_room_unique _ c duplicate_name c Hone) as (i & r & -> & Hi & Hr).
  cbn [bind overlay].
  rewrite (set_rank_unique _ _ _ _ _ _ Hone Hi Hr), map_app.
  cbn [map]. now rewrite Hkey, (map_unless _ _ _ Hf), (map_unless _ _ _ Hb).
Qed.

(** C7, as stated, fails: the collapse and the single row leave two equal
    (display name, organizer) pairs in the result when the terse listing
    repeats another entry. *)
Lemma duplicate_pair_counterexample :
  decode_lines sample_lines = Ok sample_phase1
  /\ build_rooms sample_phase1 = Ok sample_all
  /\ List.length (filter is_duplicate sample_all) = 2%nat
  /\ row_key merged_row = Some (duplicate_name, "Acme Co")
  /\ exists out,
       get_rooms sample_phase1 [merged_row] = Ok out
       /\ List.length (filter is_duplicate out) = 1%nat
       /\ row_count out merged_row = 1%nat
       /\ ~ NoDup (map room_key out).
Proof.
  split; [vm_compute; reflexivity|].
  split; [vm_compute; reflexivity|].
  split; [vm_compute; reflexivity|].
  split; [vm_compute; reflexivity|].
  eexists.
  split; [vm_compute; reflexivity|].
  split; [vm_compute; reflexivity|].
  split; [vm_compute; reflexivity|].
  cbn [map room_key room_name_english company_name]. intros H.
  inversion H as [|? ? _ H1]; subst.
  inversion H1 as [|? ? Hnot _]; subst.
  apply Hnot. now left.
Qed.

(** C7, amended: when exactly two terse entries split to the duplicate display
    name and the single ranking row names the organizer of the second one, the
    result holds exactly one entry with that display name, that entry carries
    the row's rank, and the (display name, organizer) pairs of the result are
    pairwise distinct provided those of the other terse entries are. *)
Theorem duplicate_pair_collapse (phase1 : list Phase1Room) (row : Phase2Room)
  (pre mid post : list EscapeRoom) (first second : EscapeRoom) :
  build_rooms phase1 = Ok (pre ++ first :: mid ++ second :: post)%list ->
  is_duplicate first = true ->
  is_duplicate second = true ->
  Forall (fun r => is_duplicate r = false) (pre ++ mid ++ post) ->
  row_key row = Some (duplicate_name, company_name second) ->
  let out := ((pre ++ mid) ++ with_rank second (rank row) :: post)%list in
  get_rooms phase1 [row] = Ok out
  /\ List.length (filter is_duplicate out) = 1%nat
  /\ (forall r, In r out -> is_duplicate r = true -> phase2_rank r = rank row)
  /\ (NoDup (map room_key (pre ++ mid ++ post)) -> NoDup (map room_key out)).
Proof.
  intros Hall Hfirst Hsecond Hothers Hk out.
  apply Forall_app in Hothers as [Hpre Hothers].
  apply Forall_app in Hothers as [Hmid Hpost].
  assert (Forall (fun r => is_duplicate r = false) (pre ++ mid)) as Hfront
    by (apply Forall_app; now split).
  split; [|split; [|split]].
  - unfold get_rooms. rewrite Hall. cbn [bind].
    rewrite (remove_duplicate_first pre _ first Hpre Hfirst). cbn [bind].
    rewrite app_assoc. now apply overlay_single_duplicate.
  - unfold out. rewrite filter_app, (filter_none _ _ Hfront).
    cbn [app filter]. change (is_duplicate (with_rank second (rank row)))
      with (is_duplicate second).
    now rewrite Hsecond, (filter_none _ _ Hpost).
  - intros r Hin Hr. unfold out in Hin.
    apply in_app_or in Hin as [Hin|[<-|Hin]].
    + rewrite Forall_forall in Hfront. rewrite (Hfront _ Hin) in Hr.
      discriminate.
    + reflexivity.
    + rewrite Forall_forall in Hpost. rewrite (Hpost _ Hin) in Hr.
      discriminate.
  - intros Hnodup. unfold out. rewrite map_app. cbn [map].
    apply (NoDup_Add (Add_app _ _ _)). split.
    + now rewrite <- map_app, <- app_assoc.
    + rewrite <- map_app, <- app_assoc. intros Hin.
      apply in_map_iff in Hin as (r & Hr & Hin).
      assert (is_duplicate r = false) as Hnot.
      { apply in_app_or in Hin as [Hin|Hin].
        - rewrite Forall_forall in Hpre. auto.
        - apply in_app_or in Hin as [Hin|Hin].
          + rewrite Forall_forall in Hmid. auto.
          + rewrite Forall_forall in Hpost. auto. }
      unfold room_key in Hr. cbn [with_rank room_name_english] in Hr.
      injection Hr as He _. unfold is_duplicate in Hnot, Hsecond.
      rewrite He, Hsecond in Hnot. discriminate.
Qed.

Lemma duplicate_pair_collapse_witness :
  exists out,
    get_rooms (firstn 3 sample_phase1) [merged_row] = Ok out
    /\ List.length (filter is_duplicate out) = 1%nat
    /\ (forall r, In r out -> is_duplicate r = true -> phase2_rank r = "1")
    /\ NoDup (map room_key out).
Proof.
  let all := eval vm_compute in sample_all in
  match all with
  | [?a; ?b; ?c; _] =>
      assert (Forall (fun r => is_duplicate r = false) ([] ++ [] ++ [c]))
        as Hothers by (repeat constructor);
      pose proof
        (duplicate_pair_collapse (firstn 3 sample_phase1) merged_row
           [] [] [c] a b eq_refl eq_refl eq_refl Hothers eq_refl)
        as (H1 & H2 & H3 & H4)
  end.
  eexists. split; [exact H1|]. split; [exact H2|]. split; [exact H3|].
  apply H4. repeat constructor. intros [].
Defined.

(** ** Splitting around a known organizer *)

Section SplitFacts.

Lemma append_nil_r (s : string) : s ++ "" = s.
Proof. induction s as [|a s IH]; [reflexivity|]. cbn. now rewrite IH. Qed.

Lemma contains_nil (s : string) : contains "" s = true.
Proof. apply prefix_contains, prefix_nil. Qed.

Lemma contains_cons_false (sub : string) (a : ascii) (s : string) :
  contains sub (String a s) = false ->
  prefix sub (String a s) = false /\ contains sub s = false.
Proof. cbn [contains]. apply orb_false_elim. Qed.

(** A match that starts inside [n] either lies within [n] or runs over its
    end. *)
Lemma prefix_app_cases (sep n t : string) :
  prefix sep (n ++ t) = true ->
  prefix sep n = true
  \/ ((length n < length sep)%nat /\ prefix (drop (length n) sep) t = true).
Proof.
  revert sep. induction n as [|c n IH]; intros sep H.
  - destruct sep as [|a sep]; [left; reflexivity|].
    right. split; [cbn; lia|exact H].
  - destruct sep as [|a sep]; [left; reflexivity|].
    change (String c n ++ t) with (String c (n ++ t)) in H.
    rewrite prefix_cons in H. apply andb_true_iff in H as [Hac H].
    destruct (IH _ H) as [Hin|[Hlen Hover]].
    + left. now rewrite prefix_cons, Hac.
    + right. split; [cbn [length]; lia|exact Hover].
Qed.

Lemma split_absent (sep s : string) :
  contains sep s = false -> split sep s = [s].
Proof.
  unfold split. induction s as [|a s IH]; intros H; [reflexivity|].
  apply contains_cons_false in H as [Hp Hc].
  cbn [split_go]. rewrite Hp, (IH Hc). reflexivity.
Qed.

(** The first piece of a split ends at the first occurrence of the
    separator. *)
Lemma split_first_piece (sep n t : string) :
  sep <> "" ->
  prefix sep t = true ->
  (forall k, (k < length n)%nat -> prefix sep (drop k n ++ t) = false) ->
  exists rest, split sep (n ++ t) = n :: rest.
Proof.
  intros Hsep Ht. unfold split. induction n as [|c n IH]; intros Hno.
  - destruct t as [|a t]; [destruct sep; [congruence|discriminate]|].
    cbn [append split_go]. rewrite Ht. eexists; reflexivity.
  - change (String c n ++ t) with (String c (n ++ t)).
    cbn [split_go].
    pose proof (Hno 0%nat ltac:(cbn; lia)) as H0. cbn [drop] in H0.
    change (String c n ++ t) with (String c (n ++ t)) in H0. rewrite H0.
    destruct IH as [rest ->]; [|eexists; reflexivity].
    intros k Hk. apply (Hno (S k)). cbn [length]. lia.
Qed.

Lemma contains_drop (sep n : string) (k : nat) :
  contains sep n = false -> prefix sep (drop k n) = false.
Proof.
  revert k. induction n as [|c n IH]; intros k H.
  - destruct k; exact H.
  - apply contains_cons_false in H as [Hp Hc].
    destruct k; [exact Hp|]. cbn [drop]. now apply IH.
Qed.

Lemma length_drop (k : nat) (s : string) :
  length (drop k s) = (length s - k)%nat.
Proof.
  revert k. induction s as [|c s IH]; intros [|k]; try reflexivity.
  cbn [drop length]. now rewrite IH.
Qed.

(** No proper suffix of the separator [" - Escape Stories"] starts it again. *)
Lemma exception_separator_no_border (j : nat) (t : string) :
  (1 <= j)%nat -> (j < 17)%nat ->
  prefix (drop j " - Escape Stories") (" - Escape Stories" ++ t) = false.
Proof.
  intros H1 H17.
  do 17 (destruct j as [|j]; [try lia; reflexivity|]). lia.
Qed.

Lemma exception_separator_first (n t : string) :
  contains " - Escape Stories" n = false ->
  exists rest,
    split " - Escape Stories" (n ++ " - Escape Stories" ++ t) = n :: rest.
Proof.
  intros Hn. apply split_first_piece.
  - discriminate.
  - apply prefix_app.
  - intros k Hk.
    destruct (prefix " - Escape Stories"
                (drop k n ++ " - Escape Stories" ++ t)) eqn:E; [|reflexivity].
    apply prefix_app_cases in E as [E|[Hlen E]].
    + now rewrite (contains_drop _ _ k Hn) in E.
    + rewrite exception_separator_no_border in E; [discriminate| |exact Hlen].
      rewrite length_drop. lia.
Qed.

Lemma replace_go_skip (old new x t : string) :
  replace_go old new (length x) (x ++ t) = replace_go old new 0 t.
Proof.
  induction x as [|c x IH]; [reflexivity|]. cbn [length append replace_go].
  exact IH.
Qed.

Lemma replace_go_absent (old new s : string) :
  contains old s = false -> replace_go old new 0 s = s.
Proof.
  induction s as [|a s IH]; intros H; [reflexivity|].
  apply contains_cons_false in H as [Hp Hc].
  cbn [replace_go]. now rewrite Hp, (IH Hc).
Qed.

(** Removing a name that opens the line and does not recur leaves the rest. *)
Lemma replace_leading (n t : string) :
  contains n t = false -> replace n "" (n ++ t) = t.
Proof.
  intros H. destruct n as [|c n]; [now rewrite contains_nil in H|].
  unfold replace. change (String c n ++ t) with (String c (n ++ t)).
  cbn [replace_go]. change (String c (n ++ t)) with (String c n ++ t).
  rewrite prefix_app. cbn [length Nat.sub append].
  rewrite Nat.sub_0_r, replace_go_skip. now apply replace_go_absent.
Qed.

Lemma prefix_char (c a : ascii) (s : string) :
  prefix (String c "") (String a s) = Ascii.eqb c a.
Proof. now rewrite prefix_cons, prefix_nil, andb_true_r. Qed.

Lemma contains_char_app (c : ascii) (s t : string) :
  contains (String c "") s = false ->
  contains (String c "") t = false ->
  contains (String c "") (s ++ t) = false.
Proof.
  intros Hs Ht. induction s as [|a s IH]; [exact Ht|].
  apply contains_cons_false in Hs as [Hp Hc].
  change (String a s ++ t) with (String a (s ++ t)).
  cbn [contains]. rewrite prefix_char in *. now rewrite Hp, (IH Hc).
Qed.

(** Splitting on a character: the piece before its first occurrence. *)
Lemma split_char_app (c : ascii) (p t : string) :
  contains (String c "") p = false ->
  split (String c "") (p ++ String c t) = p :: split (String c "") t.
Proof.
  unfold split. induction p as [|a p IH]; intros H.
  - cbn [append split_go]. now rewrite prefix_char, Ascii.eqb_refl.
  - apply contains_cons_false in H as [Hp Hc]. rewrite prefix_char in Hp.
    change (String a p ++ String c t) with (String a (p ++ String c t)).
    cbn [split_go]. now rewrite prefix_char, Hp, (IH Hc).
Qed.

Lemma replace_go_char_free (c : ascii) (old new p t : string) :
  contains (String c "") p = false ->
  replace_go (String c old) new 0 (p ++ t)
  = p ++ replace_go (String c old) new 0 t.
Proof.
  induction p as [|a p IH]; intros H; [reflexivity|].
  apply contains_cons_false in H as [Hp Hc]. rewrite prefix_char in Hp.
  change (String a p ++ t) with (String a (p ++ t)).
  cbn [replace_go]. rewrite prefix_cons, Hp. cbn [andb append].
  now rewrite (IH Hc).
Qed.

Lemma replace_go_skip_all (old new x : string) :
  replace_go old new (length x) x = "".
Proof.
  rewrite <- (append_nil_r x) at 2. now rewrite replace_go_skip.
Qed.

(** Removing a parenthesised group that closes the text. *)
Lemma replace_trailing_group (p group : string) :
  contains "(" p = false ->
  replace (String "(" group) "" (p ++ String "(" group) = p.
Proof.
  intros H. unfold replace. rewrite (replace_go_char_free _ _ _ _ _ H).
  cbn [replace_go]. rewrite prefix_refl. cbn [length Nat.sub append].
  now rewrite Nat.sub_0_r, replace_go_skip_all, append_nil_r.
Qed.

Lemma mem_char_single (a c : ascii) :
  mem_char a (String c "") = Ascii.eqb c a.
Proof. cbn [mem_char]. now rewrite orb_false_r, Ascii.eqb_sym. Qed.

Lemma rstrip_char_absent (c : ascii) (s : string) :
  contains (String c "") s = false -> rstrip (String c "") s = s.
Proof.
  induction s as [|a s IH]; intros H; [reflexivity|].
  apply contains_cons_false in H as [Hp Hc]. rewrite prefix_char in Hp.
  cbn [rstrip]. rewrite (IH Hc), mem_char_single, Hp. now destruct s.
Qed.

Lemma rstrip_char_app (c : ascii) (s : string) :
  rstrip (String c "") (s ++ String c "") = rstrip (String c "") s.
Proof.
  induction s as [|a s IH].
  - cbn [append rstrip]. now rewrite mem_char_single, Ascii.eqb_refl.
  - change (String a s ++ String c "") with (String a (s ++ String c "")).
    cbn [rstrip]. now rewrite IH.
Qed.

End SplitFacts.

(** ** The organizer exception *)

Lemma exception_tail_contains (n loc : string) :
  contains organizer_exception (n ++ exception_tail loc) = true.
Proof.
  apply contains_app_r.
  change (exception_tail loc)
    with (String " " (organizer_exception ++ " (" ++ loc ++ ")")).
  cbn [contains]. rewrite (prefix_contains _ _ (prefix_app _ _)).
  apply orb_true_r.
Qed.

Lemma exception_name_part (n loc : string) :
  contains " - Escape Stories" n = false ->
  room_name_part_of (n ++ exception_tail loc) = Ok n.
Proof.
  intros Hn. unfold room_name_part_of. rewrite exception_tail_contains.
  change (exception_tail loc)
    with (" - Escape Stories" ++ " - Live Escape Game Wuppertal (" ++ loc ++ ")").
  now destruct (exception_separator_first n
                  (" - Live Escape Game Wuppertal (" ++ loc ++ ")") Hn)
    as [rest ->].
Qed.

Lemma exception_location_part (n loc : string) :
  contains n (exception_tail loc) = false ->
  lstrip " - " (replace n "" (n ++ exception_tail loc))
  = (exception_organizer ++ " ") ++ String "(" (loc ++ ")").
Proof. intros H. now rewrite (replace_leading _ _ H). Qed.

Lemma exception_last_group (loc : string) :
  contains "(" loc = false ->
  getitem_neg
    (split "(" ((exception_organizer ++ " ") ++ String "(" (loc ++ ")"))) 1
  = Ok (loc ++ ")").
Proof.
  intros H. rewrite split_char_app by reflexivity.
  rewrite split_absent; [reflexivity|].
  now apply contains_char_app.
Qed.

Lemma exception_location (loc : string) :
  contains ")" loc = false -> rstrip ")" (loc ++ ")") = loc.
Proof. intros H. now rewrite rstrip_char_app, rstrip_char_absent. Qed.

Lemma exception_company (loc : string) :
  strip " "
    (replace ("(" ++ loc ++ ")") ""
       ((exception_organizer ++ " ") ++ String "(" (loc ++ ")")))
  = exception_organizer.
Proof.
  change ("(" ++ loc ++ ")") with (String "(" (loc ++ ")")).
  now rewrite replace_trailing_group by reflexivity.
Qed.

(** On such a line [parse_name] only has the name portion left to look at. *)
Lemma parse_name_exception (line n loc : string) :
  normalise line = n ++ exception_tail loc ->
  contains " - Escape Stories" n = false ->
  contains n (exception_tail loc) = false ->
  contains "(" loc = false ->
  contains ")" loc = false ->
  parse_name line
  = (english <- getitem (split "[" n) 0 ;;
     original <-
       (if contains "[" n
        then (x <- getitem (split "[" n) 1 ;; Ok (Some (replace "]" "" x)))
        else Ok None) ;;
     let '(room_name_english, room_name_original) :=
       if contains duplicate_name (n ++ exception_tail loc)
       then (duplicate_name, Some "Petra - El reino perdido")
       else (english, original) in
     Ok (room_name_english, room_name_original, exception_organizer, loc)).
Proof.
  intros Hline Hn Hrecur Hopen Hclose. unfold parse_name. rewrite Hline.
  rewrite (exception_name_part _ _ Hn). cbn [bind].
  destruct (getitem (split "[" n) 0) as [|english]; [reflexivity|].
  cbn [bind].
  rewrite (exception_location_part _ _ Hrecur).
  rewrite (exception_last_group _ Hopen).
  destruct (if contains "[" n
            then x <- getitem (split "[" n) 1;; Ok (Some (replace "]" "" x))
            else Ok None) as [|original]; [reflexivity|].
  cbn [bind]. rewrite (exception_location _ Hclose), exception_company.
  reflexivity.
Qed.

(** C8, as stated, fails.  The test for the organizer literal does not ask for
    the blank that the split on [" - Escape Stories"] needs, so a line holding
    the literal without it is taken whole as name portion; and a line in the
    documented shape whose room name recurs inside the organizer loses part
    of the organizer. *)
Lemma organizer_exception_counterexample :
  (contains organizer_exception
     "Foo- Escape Stories - Live Escape Game Wuppertal (Wuppertal)" = true
   /\ room_name_part_of
        "Foo- Escape Stories - Live Escape Game Wuppertal (Wuppertal)"
      = Ok "Foo- Escape Stories - Live Escape Game Wuppertal (Wuppertal)"
   /\ parse_name
        "Foo- Escape Stories - Live Escape Game Wuppertal (Wuppertal)"
      = Ok ("Foo- Escape Stories - Live Escape Game Wuppertal (Wuppertal)",
            None, "", ""))
  /\ (contains organizer_exception
        "Escape - Escape Stories - Live Escape Game Wuppertal (Wuppertal)"
      = true
      /\ parse_name
           "Escape - Escape Stories - Live Escape Game Wuppertal (Wuppertal)"
         = Ok ("Escape", None, "Stories - Live  Game Wuppertal", "Wuppertal"))
  /\ ~ (forall line,
          contains organizer_exception line = true ->
          exists english original loc,
            parse_name line = Ok (english, original, exception_organizer, loc)).
Proof.
  split; [repeat split; vm_compute; reflexivity|].
  split; [split; vm_compute; reflexivity|].
  intros H.
  destruct (H "Foo- Escape Stories - Live Escape Game Wuppertal (Wuppertal)"
              eq_refl) as (english & original & loc & Hp).
  vm_compute in Hp. discriminate.
Qed.

(** C8, amended: when the normalised line is a room name followed by
    [" - "], the exception organizer and a parenthesised location, the room
    name holds no [" - Escape Stories"] and does not recur in the rest of the
    line, and the location holds no parenthesis, then the name portion is the
    whole room name and the splitter returns the full organizer and the
    location. *)
Theorem organizer_exception_split (line room_name loc : string) :
  normalise line = room_name ++ exception_tail loc ->
  contains " - Escape Stories" room_name = false ->
  contains room_name (exception_tail loc) = false ->
  contains "(" loc = false ->
  contains ")" loc = false ->
  contains organizer_exception (normalise line) = true
  /\ room_name_part_of (normalise line) = Ok room_name
  /\ (exists english original,
         parse_name line = Ok (english, original, exception_organizer, loc))
  /\ (contains "[" room_name = false ->
      contains duplicate_name (normalise line) = false ->
      parse_name line = Ok (room_name, None, exception_organizer, loc)).
Proof.
  intros Hline Hn Hrecur Hopen Hclose.
  rewrite (parse_name_exception _ _ _ Hline Hn Hrecur Hopen Hclose), Hline.
  split; [apply exception_tail_contains|].
  split; [now apply exception_name_part|]. split.
  - destruct (split_head "[" room_name) as [english ->]. cbn [bind].
    destruct (contains "[" room_name) eqn:Hb.
    + destruct (split_char_second _ _ Hb) as [x ->]. cbn [bind].
      destruct (contains duplicate_name _); do 2 eexists; reflexivity.
    + cbn [bind].
      destruct (contains duplicate_name _); do 2 eexists; reflexivity.
  - intros Hb Hdup. rewrite Hb, Hdup, (split_absent _ _ Hb). reflexivity.
Qed.

Lemma organizer_exception_split_witness :
  parse_name
    "🆕Tom &amp; Jerry - Escape Stories - Live Escape Game Wuppertal (Wuppertal)"
  = Ok ("Tom & Jerry", None, "Escape Stories - Live Escape Game Wuppertal",
        "Wuppertal").
Proof.
  refine (proj2 (proj2 (proj2
    (organizer_exception_split
       "🆕Tom &amp; Jerry - Escape Stories - Live Escape Game Wuppertal (Wuppertal)"
       "Tom & Jerry" "Wuppertal" _ _ _ _ _))) _ _);
    vm_compute; reflexivity.
Defined.

(** * Further properties of the program *)

(** ** More facts about the built-ins *)

Section MoreBuiltinFacts.

Lemma append_associative (a b c : string) : (a ++ b) ++ c = a ++ b ++ c.
Proof. induction a as [|x a IH]; [reflexivity|]. cbn. now rewrite IH. Qed.

Lemma prefix_iff (a s : string) :
  prefix a s = true <-> exists q, s = a ++ q.
Proof.
  split.
  - revert s. induction a as [|x a IH]; intros s H; [now exists s|].
    destruct s as [|y s]; [discriminate|].
    rewrite prefix_cons in H. apply andb_true_iff in H as [Hxy H].
    apply Ascii.eqb_eq in Hxy as ->. destruct (IH _ H) as [q ->]. now exists q.
  - intros [q ->]. apply prefix_app.
Qed.

Lemma contains_iff (sub s : string) :
  contains sub s = true <-> exists p q, s = p ++ sub ++ q.
Proof.
  split.
  - induction s as [|a s IH]; cbn [contains]; intros H.
    + apply prefix_iff in H as [q ->]. now exists "", q.
    + apply orb_true_iff in H as [H|H].
      * apply prefix_iff in H as [q ->]. now exists "", q.
      * destruct (IH H) as (p & q & ->). now exists (String a p), q.
  - intros (p & q & ->). apply contains_infix.
Qed.

Lemma contains_trans (a b s : string) :
  contains a b = true -> contains b s = true -> contains a s = true.
Proof.
  intros Hab Hbs. apply contains_iff in Hab as (p & q & ->).
  apply contains_iff in Hbs as (p' & q' & ->).
  apply contains_iff. exists (p' ++ p), (q ++ q').
  now rewrite !append_associative.
Qed.

Lemma contains_absent_trans (a b s : string) :
  contains a b = true -> contains a s = false -> contains b s = false.
Proof.
  intros Hab Hs. destruct (contains b s) eqn:E; [|reflexivity].
  now rewrite (contains_trans _ _ _ Hab E) in Hs.
Qed.

Lemma prefix_length (a s : string) :
  prefix a s = true -> (length a <= length s)%nat.
Proof.
  intros H. apply prefix_iff in H as [q ->].
  clear. induction a as [|x a IH]; cbn [length append]; lia.
Qed.

Lemma length_append (a b : string) :
  length (a ++ b) = (length a + length b)%nat.
Proof. induction a as [|x a IH]; [reflexivity|]. cbn. now rewrite IH. Qed.

Lemma prefix_app_r (a x y : string) :
  prefix a x = true -> prefix a (x ++ y) = true.
Proof.
  intros H. apply prefix_iff in H as [q ->]. rewrite append_associative.
  apply prefix_app.
Qed.

Lemma prefix_app_both (x a b : string) :
  prefix a b = true -> prefix (x ++ a) (x ++ b) = true.
Proof.
  intros H. apply prefix_iff in H as [q ->]. rewrite <- append_associative.
  apply prefix_app.
Qed.

Lemma prefix_trans (a b c : string) :
  prefix a b = true -> prefix b c = true -> prefix a c = true.
Proof.
  intros Hab Hbc. apply prefix_iff in Hab as [q ->].
  apply prefix_iff in Hbc as [q' ->]. rewrite append_associative.
  apply prefix_app.
Qed.

Lemma split_go_skip (sep x t : string) :
  split_go sep (length x) (x ++ t) = split_go sep 0 t.
Proof. induction x as [|c x IH]; [reflexivity|]. exact IH. Qed.

Lemma join_cons_head (sep : string) (c : ascii) (l : list string) :
  l <> [] -> join sep (cons_head c l) = String c (join sep l).
Proof. destruct l as [|h [|h2 l]]; [congruence|reflexivity|reflexivity]. Qed.

Lemma join_cons (sep x : string) (l : list string) :
  l <> [] -> join sep (x :: l) = x ++ sep ++ join sep l.
Proof. destruct l; [congruence|reflexivity]. Qed.

(** Joining the pieces of a split with the separator gives the text back. *)
Lemma join_split_bounded (sep : string) (n : nat) :
  sep <> "" ->
  forall s, (length s <= n)%nat -> join sep (split sep s) = s.
Proof.
  intros Hsep. unfold split. induction n as [|n IH]; intros s Hlen.
  - destruct s; [reflexivity|cbn in Hlen; lia].
  - destruct s as [|c s]; [reflexivity|]. cbn [split_go].
    destruct (prefix sep (String c s)) eqn:Hp.
    + apply prefix_iff in Hp as [q Hq].
      destruct sep as [|a sep']; [congruence|].
      cbn [append] in Hq. injection Hq as -> ->.
      cbn [length Nat.sub]. rewrite Nat.sub_0_r, split_go_skip.
      rewrite join_cons by apply split_go_not_nil.
      rewrite IH; [reflexivity|].
      cbn [length] in Hlen. rewrite length_append in Hlen. lia.
    + rewrite join_cons_head by apply split_go_not_nil.
      rewrite IH; [reflexivity|]. cbn [length] in Hlen. lia.
Qed.

Lemma join_split (sep s : string) :
  sep <> "" -> join sep (split sep s) = s.
Proof. intros H. now apply (join_split_bounded sep (length s)). Qed.

(** No piece of a split on one character holds that character. *)
Lemma split_char_pieces (c : ascii) (s : string) :
  Forall (fun piece => contains (String c "") piece = false)
    (split (String c "") s).
Proof.
  unfold split. induction s as [|a s IH]; [repeat constructor|].
  cbn [split_go]. rewrite prefix_char.
  destruct (Ascii.eqb c a) eqn:Hca.
  - constructor; [reflexivity|exact IH].
  - destruct (split_go (String c "") 0 s) as [|h t] eqn:E;
      [now apply split_go_not_nil in E|].
    inversion IH as [|? ? Hh Ht]; subst. constructor; [|exact Ht].
    cbn [contains]. now rewrite prefix_char, Hca, Hh.
Qed.

(** The first piece of a split opens the text. *)
Lemma split_head_prefix (sep s h : string) (t : list string) :
  split sep s = h :: t -> prefix h s = true.
Proof.
  unfold split. revert h t. induction s as [|a s IH]; intros h t H.
  - injection H as <- _. reflexivity.
  - cbn [split_go] in H. destruct (prefix sep (String a s)).
    + injection H as <- _. reflexivity.
    + destruct (split_go sep 0 s) as [|h' t'] eqn:E.
      * now apply split_go_not_nil in E.
      * injection H as <- _. rewrite prefix_cons, Ascii.eqb_refl.
        now apply (IH h' t').
Qed.

Lemma join_firstn_prefix (sep : string) (k : nat) (l : list string) :
  prefix (join sep (firstn k l)) (join sep l) = true.
Proof.
  revert k. induction l as [|x l IH]; intros k.
  - rewrite firstn_nil. reflexivity.
  - destruct k as [|k]; [apply prefix_nil|]. cbn [firstn].
    destruct l as [|y l]; [rewrite firstn_nil; apply prefix_refl|].
    rewrite (join_cons sep x (y :: l)) by easy.
    destruct k as [|k].
    + cbn [firstn]. apply prefix_app.
    + replace (firstn (S k) (y :: l)) with (y :: firstn k l) by reflexivity.
      rewrite (join_cons sep x (y :: firstn k l)) by easy.
      apply prefix_app_both, prefix_app_both.
      exact (IH (S k)).
Qed.

Lemma join_app (sep : string) (l1 l2 : list string) :
  l1 <> [] -> l2 <> [] ->
  join sep (l1 ++ l2) = join sep l1 ++ sep ++ join sep l2.
Proof.
  intros H1 H2. induction l1 as [|x l1 IH]; [congruence|].
  destruct l1 as [|y l1].
  - cbn [app]. now rewrite join_cons.
  - change ((x :: y :: l1) ++ l2)%list with (x :: ((y :: l1) ++ l2))%list.
    rewrite (join_cons sep x ((y :: l1) ++ l2)) by easy.
    rewrite IH by easy.
    rewrite (join_cons sep x (y :: l1)) by easy.
    now rewrite !append_associative.
Qed.

(** A text holds a one-character separator exactly when it splits in at
    least two pieces. *)
Lemma split_char_length (c : ascii) (s : string) :
  (2 <= List.length (split (String c "") s))%nat
  <-> contains (String c "") s = true.
Proof.
  split.
  - intros H. destruct (contains (String c "") s) eqn:E; [reflexivity|].
    rewrite (split_absent _ _ E) in H. cbn in H. lia.
  - intros H. destruct (split_char_second _ _ H) as [x Hx].
    unfold getitem in Hx.
    destruct (nth_error (split (String c "") s) 1) eqn:E; [|discriminate].
    assert (1 < List.length (split (String c "") s))%nat; [|lia].
    apply nth_error_Some. congruence.
Qed.

Lemma last_two {A : Type} (l : list A) :
  (2 <= List.length l)%nat ->
  exists a b, l = (firstn (List.length l - 2) l ++ [a; b])%list.
Proof.
  intros H. pose proof (firstn_skipn (List.length l - 2) l) as E.
  pose proof (length_skipn (List.length l - 2) l) as Hs.
  destruct (skipn (List.length l - 2) l) as [|a [|b [|c r]]];
    cbn [List.length] in Hs; try lia.
  now exists a, b.
Qed.

End MoreBuiltinFacts.

(** ** More on the decoder *)

(** X1: The three outcomes of decoding one line: [IndexError] exactly when the
    line holds no blank, the rating error exactly when it holds a blank but no
    rating marker, a record exactly when it holds both; nothing else is ever
    raised. *)
Theorem decode_line_outcomes (line : string) :
  (decode_line line = Raise IndexError <-> contains " " line = false)
  /\ (decode_line line = Raise (AttributeError (terror_message line))
      <-> contains " " line = true /\ has_rating_marker line = false)
  /\ ((exists room, decode_line line = Ok room)
      <-> contains " " line = true /\ has_rating_marker line = true)
  /\ (forall e, decode_line line = Raise e ->
                e = IndexError \/ e = AttributeError (terror_message line)).
Proof.
  pose proof (decode_line_errors line) as H.
  pose proof (split_char_length " " line) as [Hlen1 Hlen2].
  assert ((List.length (split " " line) < 2)%nat -> contains " " line = false)
    as Hshort.
  { intros Hlt. destruct (contains " " line); [|reflexivity].
    specialize (Hlen2 eq_refl). lia. }
  destruct (decode_line line) as [[| |msg|msg]|room]; try contradiction.
  - rewrite (Hshort H). split; [tauto|]. split; [|split].
    + split; [discriminate|]. intros [? _]. discriminate.
    + split; [intros [? ?]; discriminate|]. intros [? _]. discriminate.
    + intros e He. injection He as <-. now left.
  - destruct H as (Hlen & Hm & ->). rewrite (Hlen1 Hlen), Hm.
    split; [split; discriminate|]. split; [tauto|]. split.
    + split; [intros [? ?]; discriminate|]. intros [_ ?]. discriminate.
    + intros e He. injection He as <-. now right.
  - destruct H as (Hlen & Hm). rewrite (Hlen1 Hlen), Hm.
    split; [split; discriminate|]. split.
    + split; [discriminate|]. intros [_ ?]. discriminate.
    + split; [|discriminate]. split; [tauto|]. intros _. now exists room.
Qed.

(** X2: A decoded line is made of the decoded name, the count token and the
    marker token, separated by single blanks; with exactly two tokens the
    name is empty. *)
Theorem decode_line_reassembles (line : string) (room : Phase1Room) :
  decode_line line = Ok room ->
  exists count_token marker_token,
    nominations room = Str (strip "()" count_token)
    /\ contains " " count_token = false
    /\ contains " " marker_token = false
    /\ ((name room = "" /\ line = count_token ++ " " ++ marker_token)
        \/ line = name room ++ " " ++ count_token ++ " " ++ marker_token).
Proof.
  unfold decode_line, getitem_neg. intros H.
  pose proof (split_char_pieces " " line) as Hpieces.
  pose proof (join_split " " line ltac:(discriminate)) as Hjoin.
  remember (split " " line) as tokens eqn:Et. clear Et.
  destruct (2 <=? List.length tokens)%nat eqn:Hlen; [|discriminate].
  apply Nat.leb_le in Hlen.
  destruct (last_two tokens Hlen) as (a & b & Hab).
  unfold slice_to_neg in H.
  remember (firstn (List.length tokens - 2) tokens) as front eqn:Ef.
  assert (List.length front = (List.length tokens - 2)%nat) as Hfront.
  { rewrite Ef, length_firstn. lia. }
  clear Ef. unfold getitem in H.
  rewrite <- Hfront in H. rewrite Hab in H at 1.
  rewrite nth_error_app2, Nat.sub_diag in H by lia.
  cbn [nth_error bind] in H.
  destruct (parse_terror_level line); [discriminate|].
  cbn [bind] in H. injection H as <-. cbn [name nominations].
  rewrite Hab in Hpieces. apply Forall_app in Hpieces as [_ Hpieces].
  apply Forall_cons_iff in Hpieces as [Ha Hpieces].
  apply Forall_cons_iff in Hpieces as [Hb _].
  exists a, b. split; [reflexivity|]. split; [exact Ha|]. split; [exact Hb|].
  rewrite <- Hjoin, Hab. destruct front as [|f front].
  - left. split; reflexivity.
  - right. now rewrite join_app.
Qed.

Lemma decode_line_reassembles_witness :
  exists count_token marker_token,
    Str "12" = Str (strip "()" count_token)
    /\ contains " " count_token = false
    /\ contains " " marker_token = false
    /\ (("Foo - Org (Town)" = ""
         /\ "Foo - Org (Town) (12) ☀🇬🇧" = count_token ++ " " ++ marker_token)
        \/ "Foo - Org (Town) (12) ☀🇬🇧"
           = "Foo - Org (Town)" ++ " " ++ count_token ++ " " ++ marker_token).
Proof.
  exact (decode_line_reassembles "Foo - Org (Town) (12) ☀🇬🇧"
           (mkPhase1Room "Foo - Org (Town)" (Str "12") false NONE ["English"])
           eq_refl).
Defined.

Lemma flat_map_filter {A B : Type} (p : A -> bool) (f : A -> B) (l : list A) :
  flat_map (fun a => if p a then [f a] else []) l = map f (filter p l).
Proof.
  induction l as [|a l IH]; [reflexivity|].
  cbn [flat_map filter]. destruct (p a); cbn [map app]; now rewrite IH.
Qed.

Lemma distinct_NoDup (l : list string) : distinct l = true -> NoDup l.
Proof.
  induction l as [|x l IH]; [constructor|].
  cbn [distinct]. intros H. apply andb_true_iff in H as [Hx Hl].
  constructor; [|auto]. intros Hin.
  apply negb_true_iff in Hx.
  assert (existsb (String.eqb x) l = true) as E; [|congruence].
  apply existsb_exists. exists x. split; [exact Hin|apply String.eqb_refl].
Qed.

(** Dropping rows of a table keeps its second components distinct. *)
Lemma kept_rows_distinct (table : list (string * string))
  (keep : string * string -> bool) :
  NoDup (map snd table) -> NoDup (map snd (filter keep table)).
Proof.
  intros Hall. induction table as [|row table IH]; [constructor|].
  cbn [map filter] in *. apply NoDup_cons_iff in Hall as [Hfresh Hrest].
  destruct (keep row); [|now apply IH]. cbn [map].
  apply NoDup_cons; [|now apply IH].
  intros Hin. apply Hfresh. apply in_map_iff in Hin as (other & Hsnd & Hin).
  apply filter_In in Hin as [Hin _]. apply in_map_iff. now exists other.
Qed.

(** X3: The languages of a line are the table's languages whose marker occurs,
    in table order, each at most once. *)
Theorem parse_languages_distinct (line : string) :
  parse_languages line
  = map snd (filter (fun entry => contains (fst entry) line) language_table)
  /\ NoDup (parse_languages line)
  /\ (List.length (parse_languages line) <= 29)%nat.
Proof.
  assert (parse_languages line
          = map snd (filter (fun entry => contains (fst entry) line)
                       language_table)) as E.
  { rewrite parse_languages_table. unfold yield_if. apply flat_map_filter. }
  split; [exact E|]. rewrite E. split.
  - apply kept_rows_distinct, distinct_NoDup. vm_compute. reflexivity.
  - rewrite length_map.
    etransitivity; [apply filter_length_le|]. vm_compute. lia.
Qed.

(** ** Segments and lines *)

Lemma split_at_first (sep n r : string) :
  sep <> "" ->
  (forall k, (k < length n)%nat ->
             prefix sep (drop k n ++ sep ++ r) = false) ->
  split sep (n ++ sep ++ r) = n :: split sep r.
Proof.
  intros Hsep. unfold split. induction n as [|c n IH]; intros Hno.
  - destruct sep as [|a sep']; [congruence|].
    change ("" ++ String a sep' ++ r) with (String a (sep' ++ r)).
    cbn [split_go]. change (String a (sep' ++ r)) with (String a sep' ++ r).
    rewrite prefix_app. cbn [length Nat.sub].
    now rewrite Nat.sub_0_r, split_go_skip.
  - change (String c n ++ sep ++ r) with (String c (n ++ sep ++ r)).
    cbn [split_go].
    pose proof (Hno 0%nat ltac:(cbn; lia)) as H0. cbn [drop] in H0.
    change (String c n ++ sep ++ r) with (String c (n ++ sep ++ r)) in H0.
    rewrite H0, IH; [reflexivity|].
    intros k Hk. apply (Hno (S k)). cbn [length]. lia.
Qed.

(** No proper suffix of the break ["<br/>"] starts it again. *)
Lemma break_no_border (j : nat) (t : string) :
  (1 <= j)%nat -> (j < 5)%nat ->
  prefix (drop j "<br/>") ("<br/>" ++ t) = false.
Proof.
  intros H1 H5. do 5 (destruct j as [|j]; [try lia; reflexivity|]). lia.
Qed.

Lemma split_break (seg r : string) :
  contains "<br/>" seg = false ->
  split "<br/>" (seg ++ "<br/>" ++ r) = seg :: split "<br/>" r.
Proof.
  intros Hseg. apply split_at_first; [discriminate|].
  intros k Hk.
  destruct (prefix "<br/>" (drop k seg ++ "<br/>" ++ r)) eqn:E; [|reflexivity].
  apply prefix_app_cases in E as [E|[Hlen E]].
  - now rewrite (contains_drop _ _ k Hseg) in E.
  - rewrite break_no_border in E; [discriminate| |exact Hlen].
    rewrite length_drop. lia.
Qed.

Lemma split_paragraph (segments : list string) (tail : string) :
  Forall (fun seg => contains "<br/>" seg = false) segments ->
  contains "<br/>" tail = false ->
  split "<br/>" (paragraph segments tail) = (segments ++ [tail])%list.
Proof.
  intros Hsegs Htail. induction Hsegs as [|seg segments Hseg _ IH].
  - now apply split_absent.
  - cbn [paragraph app]. now rewrite split_break, IH.
Qed.

(** X6: [read_phase1] decodes exactly the segments closed by a break, in order;
    whatever follows the last break is ignored, and a text without any break
    gives the empty listing. *)
Theorem read_phase1_paragraph (segments : list string) (tail : string) :
  Forall (fun seg => contains "<br/>" seg = false) segments ->
  contains "<br/>" tail = false ->
  read_phase1 (paragraph segments tail)
  = (lines <- strip_segments segments ;; decode_lines lines)
  /\ read_phase1 tail = Ok [].
Proof.
  intros Hsegs Htail. unfold read_phase1, slice_to_neg. split.
  - rewrite (split_paragraph _ _ Hsegs Htail), length_app.
    cbn [List.length]. rewrite Nat.add_sub, firstn_app, Nat.sub_diag.
    now rewrite firstn_all, firstn_O, app_nil_r.
  - now rewrite (split_absent _ _ Htail).
Qed.

Lemma read_phase1_paragraph_witness :
  read_phase1
    (paragraph ["Foo - Org (Town) (12) ☀🇬🇧"; "Bar - Org (Town) (3) 👻"] "</p>")
  = Ok [mkPhase1Room "Foo - Org (Town)" (Str "12") false NONE ["English"];
        mkPhase1Room "Bar - Org (Town)" (Str "3") false SPOOKY []].
Proof.
  refine (eq_trans (proj1 (read_phase1_paragraph _ _ _ _)) _).
  - repeat constructor.
  - reflexivity.
  - reflexivity.
Defined.

Lemma getitem_neg_In {A : Type} (l : list A) (k : nat) (a : A) :
  getitem_neg l k = Ok a -> In a l.
Proof.
  unfold getitem_neg, getitem.
  destruct (k <=? List.length l)%nat; [|discriminate].
  destruct (nth_error l (List.length l - k)) eqn:E; [|discriminate].
  intros H. injection H as <-. eapply nth_error_In, E.
Qed.

Lemma getitem_In {A : Type} (l : list A) (i : nat) (a : A) :
  getitem l i = Ok a -> In a l.
Proof.
  unfold getitem. destruct (nth_error l i) eqn:E; [|discriminate].
  intros H. injection H as <-. eapply nth_error_In, E.
Qed.

Lemma lstrip_char_absent (c : ascii) (s : string) :
  contains (String c "") s = false -> lstrip (String c "") s = s.
Proof.
  destruct s as [|a s]; [reflexivity|]. intros H.
  apply contains_cons_false in H as [Hp _]. rewrite prefix_char in Hp.
  cbn [lstrip]. now rewrite mem_char_single, Hp.
Qed.

Lemma rstrip_app_kept (chars x y : string) :
  y <> "" -> rstrip chars y = y -> rstrip chars (x ++ y) = x ++ y.
Proof.
  intros Hy Hr. induction x as [|a x IH]; [exact Hr|].
  change (String a x ++ y) with (String a (x ++ y)).
  cbn [rstrip]. rewrite IH.
  destruct (x ++ y) eqn:E; [|reflexivity].
  destruct x; [cbn in E; congruence|discriminate].
Qed.

Lemma lstrip_newlines (junk line : string) :
  line <> "" ->
  contains newline line = false ->
  lstrip newline (junk ++ newline ++ line) = line
  \/ exists kept, lstrip newline (junk ++ newline ++ line)
                  = kept ++ newline ++ line.
Proof.
  intros Hne Hline. induction junk as [|a junk IH].
  - left. change ("" ++ newline ++ line) with (String "010" line).
    change (lstrip newline (String "010" line)) with (lstrip newline line).
    now apply lstrip_char_absent.
  - change (String a junk ++ newline ++ line)
      with (String a (junk ++ newline ++ line)).
    cbn [lstrip]. destruct (mem_char a newline); [exact IH|].
    right. now exists (String a junk).
Qed.

Lemma prefix_before_char (old x y : string) (c : ascii) :
  mem_char c old = false ->
  prefix old (x ++ String c y) = true -> prefix old x = true.
Proof.
  revert x. induction old as [|o old IH]; intros x Hc H; [apply prefix_nil|].
  cbn [mem_char] in Hc. apply orb_false_elim in Hc as [Hco Hc].
  destruct x as [|a x].
  - cbn [append] in H. rewrite prefix_cons, Ascii.eqb_sym, Hco in H.
    discriminate.
  - change (String a x ++ String c y) with (String a (x ++ String c y)) in H.
    rewrite prefix_cons in *. apply andb_true_iff in H as [-> H].
    cbn [andb]. now apply IH.
Qed.

(** A replacement never reaches across a character foreign to the pattern. *)
Lemma replace_go_across (old new y : string) (c : ascii) :
  old <> "" ->
  mem_char c old = false ->
  forall x k, (k <= length x)%nat ->
    replace_go old new k (x ++ String c y)
    = replace_go old new k x ++ String c (replace_go old new 0 y).
Proof.
  intros Hold Hc. induction x as [|a x IH]; intros k Hk.
  - destruct k; [|cbn in Hk; lia]. cbn [append replace_go].
    destruct (prefix old (String c y)) eqn:E; [|reflexivity].
    apply (prefix_before_char old "" y c Hc) in E.
    destruct old; [congruence|discriminate].
  - change (String a x ++ String c y) with (String a (x ++ String c y)).
    destruct k as [|k].
    + cbn [replace_go].
      destruct (prefix old (String a (x ++ String c y))) eqn:E.
      * change (String a (x ++ String c y))
          with (String a x ++ String c y) in E.
        apply (prefix_before_char _ _ _ _ Hc) in E. rewrite E.
        pose proof (prefix_length _ _ E) as Hlen. cbn [length] in Hlen.
        rewrite IH by lia. now rewrite append_associative.
      * destruct (prefix old (String a x)) eqn:E'.
        -- apply (prefix_app_r _ _ (String c y)) in E'.
           change (String a x ++ String c y)
             with (String a (x ++ String c y)) in E'. congruence.
        -- rewrite IH by lia. reflexivity.
    + cbn [replace_go]. apply IH. cbn [length] in Hk. lia.
Qed.

Lemma replace_across_newline (old kept line : string) :
  old <> "" ->
  mem_char "010" old = false ->
  contains old line = false ->
  replace old "" (kept ++ newline ++ line)
  = replace old "" kept ++ newline ++ line.
Proof.
  intros Hold Hc Hline. unfold replace.
  destruct old as [|o old]; [congruence|].
  change (kept ++ newline ++ line) with (kept ++ String "010" line).
  rewrite replace_go_across by (trivial; lia).
  now rewrite (replace_go_absent _ _ _ Hline).
Qed.

Lemma getitem_neg_cons {A : Type} (x : A) (l : list A) :
  l <> [] -> getitem_neg (x :: l) 1 = getitem_neg l 1.
Proof.
  destruct l as [|y l]; [congruence|]. intros _.
  unfold getitem_neg, getitem. cbn [List.length Nat.leb Nat.sub].
  rewrite !Nat.sub_0_r. reflexivity.
Qed.

(** The last piece of a split on a character is the text after its last
    occurrence. *)
Lemma split_char_last (c : ascii) (x t : string) :
  contains (String c "") t = false ->
  getitem_neg (split (String c "") (x ++ String c t)) 1 = Ok t.
Proof.
  intros Ht. unfold split. induction x as [|a x IH].
  - cbn [append split_go]. rewrite prefix_char, Ascii.eqb_refl.
    cbn [length Nat.sub]. fold (split (String c "") t).
    now rewrite (split_absent _ _ Ht).
  - change (String a x ++ String c t) with (String a (x ++ String c t)).
    cbn [split_go]. rewrite prefix_char.
    destruct (Ascii.eqb c a).
    + cbn [length Nat.sub].
      rewrite getitem_neg_cons by apply split_go_not_nil. exact IH.
    + assert (contains (String c "") (x ++ String c t) = true) as Hc.
      { apply contains_app_r. cbn [contains].
        now rewrite prefix_char, Ascii.eqb_refl. }
      destruct (split_char_second _ _ Hc) as [second Hs].
      unfold split in Hs.
      destruct (split_go (String c "") 0 (x ++ String c t))
        as [|h [|h2 rest]]; try discriminate.
      cbn [cons_head]. rewrite getitem_neg_cons in * by discriminate.
      exact IH.
Qed.

Lemma strip_body_clean (line : string) :
  contains newline line = false ->
  contains "<" line = false ->
  getitem_neg
    (split newline (replace "</strong>" "" (replace "<strong>" "" line))) 1
  = Ok line.
Proof.
  intros Hnl Hlt. unfold replace.
  rewrite (replace_go_absent "<strong>" "" line)
    by (apply (contains_absent_trans "<"); [reflexivity|exact Hlt]).
  rewrite (replace_go_absent "</strong>" "" line)
    by (apply (contains_absent_trans "<"); [reflexivity|exact Hlt]).
  now rewrite (split_absent _ _ Hnl).
Qed.

Lemma strip_clean (line : string) :
  contains newline line = false ->
  contains "<" line = false ->
  _strip line = Ok line.
Proof.
  intros Hnl Hlt. unfold _strip, strip.
  pose proof Hnl as Hnl'. unfold newline in Hnl'.
  rewrite (rstrip_char_absent _ _ Hnl'), (lstrip_char_absent _ _ Hnl').
  now apply strip_body_clean.
Qed.

(** X5: [_strip] never raises and its result holds no line break; on a segment
    whose last line is free of markup it returns that line, dropping whatever
    precedes the last line break. *)
Theorem strip_keeps_last_line :
  (forall segment, exists line, _strip segment = Ok line)
  /\ (forall segment line,
         _strip segment = Ok line -> contains newline line = false)
  /\ (forall junk line,
         line <> "" ->
         contains newline line = false ->
         contains "<" line = false ->
         _strip line = Ok line
         /\ _strip (junk ++ newline ++ line) = Ok line).
Proof.
  split; [|split].
  - intros segment. unfold _strip. apply split_last.
  - intros segment line H. unfold _strip in H.
    apply getitem_neg_In in H.
    pose proof (split_char_pieces "010"
                  (replace "</strong>" ""
                     (replace "<strong>" "" (strip newline segment))))
      as Hpieces.
    rewrite Forall_forall in Hpieces. now apply Hpieces.
  - intros junk line Hne Hnl Hlt. split; [now apply strip_clean|].
    assert (contains "<strong>" line = false) as Hopen
      by (apply (contains_absent_trans "<"); [reflexivity|exact Hlt]).
    assert (contains "</strong>" line = false) as Hclose
      by (apply (contains_absent_trans "<"); [reflexivity|exact Hlt]).
    unfold _strip. change (String "010" "") with newline. unfold strip.
    rewrite rstrip_app_kept.
    + destruct (lstrip_newlines junk line Hne Hnl) as [->|[kept ->]].
      * now apply strip_body_clean.
      * rewrite !replace_across_newline by (trivial; discriminate).
        change (newline ++ line) with (String "010" line).
        now apply split_char_last.
    + destruct line; [congruence|discriminate].
    + rewrite rstrip_app_kept; [reflexivity| |].
      * destruct line; [congruence|discriminate].
      * now apply rstrip_char_absent.
Qed.

Lemma strip_keeps_last_line_witness :
  _strip ("<p>" ++ newline ++ "<strong>Old</strong>" ++ newline
          ++ "Foo - Org (Town) (12) ☀🇬🇧")
  = Ok "Foo - Org (Town) (12) ☀🇬🇧".
Proof.
  refine (proj2 (proj2 (proj2 strip_keeps_last_line)
                   ("<p>" ++ newline ++ "<strong>Old</strong>")
                   "Foo - Org (Town) (12) ☀🇬🇧" _ _ _)).
  - discriminate.
  - reflexivity.
  - reflexivity.
Defined.

(** ** More on the splitter *)

Section StripFacts.

Lemma rstrip_keeps_absent (c : ascii) (chars s : string) :
  contains (String c "") s = false ->
  contains (String c "") (rstrip chars s) = false.
Proof.
  induction s as [|a s IH]; intros H; [reflexivity|].
  apply contains_cons_false in H as [Hp Hc]. rewrite prefix_char in Hp.
  cbn [rstrip]. specialize (IH Hc).
  destruct (rstrip chars s) as [|b t].
  - destruct (mem_char a chars); [reflexivity|].
    cbn [contains]. now rewrite prefix_char, Hp.
  - cbn [contains] in *. now rewrite prefix_char, Hp.
Qed.

Lemma rstrip_idempotent (chars s : string) :
  rstrip chars (rstrip chars s) = rstrip chars s.
Proof.
  induction s as [|a s IH]; [reflexivity|]. cbn [rstrip].
  destruct (rstrip chars s) as [|b t] eqn:E.
  - destruct (mem_char a chars) eqn:Ha; [reflexivity|].
    cbn [rstrip]. now rewrite Ha.
  - cbn [rstrip] in *. rewrite IH. reflexivity.
Qed.

Lemma lstrip_idempotent (chars s : string) :
  lstrip chars (lstrip chars s) = lstrip chars s.
Proof.
  induction s as [|a s IH]; [reflexivity|]. cbn [lstrip].
  destruct (mem_char a chars) eqn:Ha; [exact IH|].
  cbn [lstrip]. now rewrite Ha.
Qed.

Lemma rstrip_fixed_tail (chars : string) (a : ascii) (s : string) :
  rstrip chars (String a s) = String a s -> s <> "" -> rstrip chars s = s.
Proof.
  cbn [rstrip]. intros H Hs. destruct (rstrip chars s) as [|b t].
  - destruct (mem_char a chars); [discriminate|].
    injection H as <-. congruence.
  - now injection H as <-.
Qed.

Lemma rstrip_lstrip (chars s : string) :
  rstrip chars s = s -> rstrip chars (lstrip chars s) = lstrip chars s.
Proof.
  induction s as [|a s IH]; intros H; [reflexivity|]. cbn [lstrip].
  destruct (mem_char a chars) eqn:Ha; [|exact H].
  destruct s as [|b s]; [reflexivity|].
  apply IH. now apply (rstrip_fixed_tail chars a).
Qed.

Lemma strip_idempotent (chars s : string) :
  strip chars (strip chars s) = strip chars s.
Proof.
  unfold strip.
  rewrite (rstrip_lstrip chars (rstrip chars s)) by apply rstrip_idempotent.
  apply lstrip_idempotent.
Qed.

Lemma replace_char_removed (c : ascii) (s : string) :
  contains (String c "") (replace (String c "") "" s) = false.
Proof.
  unfold replace. induction s as [|a s IH]; [reflexivity|].
  cbn [replace_go]. rewrite prefix_char.
  destruct (Ascii.eqb c a) eqn:E; [exact IH|].
  cbn [contains]. now rewrite prefix_char, E.
Qed.

Lemma replace_char_keeps_absent (c d : ascii) (s : string) :
  contains (String d "") s = false ->
  contains (String d "") (replace (String c "") "" s) = false.
Proof.
  unfold replace. induction s as [|a s IH]; intros H; [reflexivity|].
  apply contains_cons_false in H as [Hp Hc]. rewrite prefix_char in Hp.
  cbn [replace_go]. rewrite prefix_char.
  destruct (Ascii.eqb c a); [now apply IH|].
  cbn [contains]. now rewrite prefix_char, Hp, (IH Hc).
Qed.

Lemma lstrip_length (chars s : string) :
  (length (lstrip chars s) <= length s)%nat.
Proof.
  induction s as [|a s IH]; [reflexivity|]. cbn [lstrip].
  destruct (mem_char a chars); cbn [length]; lia.
Qed.

Lemma lstrip_fixed_head (chars : string) (a : ascii) (s : string) :
  lstrip chars (String a s) = String a s -> mem_char a chars = false.
Proof.
  cbn [lstrip]. destruct (mem_char a chars); [|reflexivity].
  intros H. pose proof (lstrip_length chars s) as Hlen.
  rewrite H in Hlen. cbn [length] in Hlen. lia.
Qed.

Lemma lstrip_app_kept (chars s t : string) :
  s <> "" -> lstrip chars s = s -> lstrip chars (s ++ t) = s ++ t.
Proof.
  destruct s as [|a s]; [congruence|]. intros _ H.
  apply lstrip_fixed_head in H. cbn [append lstrip]. now rewrite H.
Qed.

End StripFacts.

Lemma location_fields (part : string) :
  exists group,
    getitem_neg (split "(" part) 1 = Ok group
    /\ contains "(" (rstrip ")" group) = false.
Proof.
  destruct (split_last "(" part) as [group Hg]. exists group.
  split; [exact Hg|]. apply rstrip_keeps_absent.
  apply getitem_neg_In in Hg.
  pose proof (split_char_pieces "(" part) as Hp.
  rewrite Forall_forall in Hp. now apply Hp.
Qed.

Lemma name_fields (part : string) :
  exists english original,
    getitem (split "[" part) 0 = Ok english
    /\ (if contains "[" part
        then (x <- getitem (split "[" part) 1 ;;
              Ok (Some (replace "]" "" x)))
        else Ok None) = Ok original
    /\ contains "[" english = false
    /\ (forall x, original = Some x ->
                  contains "[" x = false /\ contains "]" x = false).
Proof.
  pose proof (split_char_pieces "[" part) as Hp. rewrite Forall_forall in Hp.
  destruct (split_head "[" part) as [english He].
  destruct (contains "[" part) eqn:Hb.
  - destruct (split_char_second _ _ Hb) as [x Hx].
    exists english, (Some (replace "]" "" x)). rewrite Hx.
    split; [exact He|]. split; [reflexivity|].
    split; [apply Hp, (getitem_In _ _ _ He)|].
    intros y Hy. injection Hy as <-. split.
    + apply replace_char_keeps_absent, Hp, (getitem_In _ _ _ Hx).
    + apply replace_char_removed.
  - exists english, None. split; [exact He|]. split; [reflexivity|].
    split; [apply Hp, (getitem_In _ _ _ He)|]. discriminate.
Qed.

(** X7: [parse_name] returns on every string, and what it returns is trimmed:
    the display name holds no opening bracket, the original name holds no
    bracket at all, the location holds no opening parenthesis and does not
    end with a closing one, and the organizer neither starts nor ends with a
    blank. *)
Theorem parse_name_fields (line : string) :
  exists english original company loc,
    parse_name line = Ok (english, original, company, loc)
    /\ contains "[" english = false
    /\ (forall x, original = Some x ->
                  contains "[" x = false /\ contains "]" x = false)
    /\ contains "(" loc = false
    /\ rstrip ")" loc = loc
    /\ strip " " company = company.
Proof.
  unfold parse_name.
  destruct (room_name_part_of_total (normalise line)) as [part ->].
  cbn [bind].
  destruct (name_fields part) as (english & original & -> & -> & He & Ho).
  cbn [bind].
  destruct (contains duplicate_name (normalise line)).
  - destruct (location_fields
                (lstrip " - " (replace part "" (normalise line))))
      as (group & -> & Hg).
    cbn [bind]. do 4 eexists. split; [reflexivity|].
    split; [reflexivity|]. split.
    { intros x Hx. injection Hx as <-. split; reflexivity. }
    split; [exact Hg|]. split; [apply rstrip_idempotent|].
    apply strip_idempotent.
  - destruct (location_fields
                (lstrip " - " (replace part "" (normalise line))))
      as (group & -> & Hg).
    cbn [bind]. do 4 eexists. split; [reflexivity|].
    split; [exact He|]. split; [exact Ho|].
    split; [exact Hg|]. split; [apply rstrip_idempotent|].
    apply strip_idempotent.
Qed.

Lemma room_name_part_prefix (line part : string) :
  room_name_part_of line = Ok part -> prefix part line = true.
Proof.
  unfold room_name_part_of. destruct (contains organizer_exception line).
  - unfold getitem.
    destruct (split " - Escape Stories" line) as [|h t] eqn:E; [discriminate|].
    cbn [nth_error]. intros H. injection H as <-.
    exact (split_head_prefix _ _ _ _ E).
  - intros H. injection H as <-. unfold slice_to_neg.
    pose proof (join_firstn_prefix " - "
                  (List.length (split " - " line) - 1) (split " - " line))
      as Hp.
    now rewrite (join_split " - " line) in Hp by discriminate.
Qed.

(** X8: An entry gets the duplicate display name exactly when its normalised
    name contains the literal; then the original name is the fixed one, and
    otherwise the display name is an initial part of the normalised name. *)
Theorem parse_name_duplicate_iff (line english company loc : string)
  (original : option string) :
  parse_name line = Ok (english, original, company, loc) ->
  (english = duplicate_name
   <-> contains duplicate_name (normalise line) = true)
  /\ (contains duplicate_name (normalise line) = true ->
      original = Some "Petra - El reino perdido")
  /\ (contains duplicate_name (normalise line) = false ->
      prefix english (normalise line) = true).
Proof.
  unfold parse_name.
  destruct (room_name_part_of (normalise line)) as [|part] eqn:Hpart;
    [discriminate|].
  cbn [bind]. unfold getitem at 1.
  destruct (split "[" part) as [|h t] eqn:Hsplit; [discriminate|].
  cbn [nth_error bind].
  assert (prefix h (normalise line) = true) as Hprefix.
  { eapply prefix_trans; [exact (split_head_prefix _ _ _ _ Hsplit)|].
    now apply room_name_part_prefix. }
  destruct (if contains "[" part
            then x <- getitem (h :: t) 1;; Ok (Some (replace "]" "" x))
            else Ok None) as [|o]; [discriminate|].
  cbn [bind].
  destruct (contains duplicate_name (normalise line)) eqn:Hdup.
  - destruct (getitem_neg _ 1); [discriminate|]. cbn [bind].
    intros H. injection H as <- <- _ _. repeat split; trivial; discriminate.
  - destruct (getitem_neg _ 1); [discriminate|]. cbn [bind].
    intros H. injection H as <- <- _ _.
    split; [|split; [discriminate|trivial]].
    split; [|discriminate]. intros ->.
    now rewrite (prefix_contains _ _ Hprefix) in Hdup.
Qed.

Lemma parse_name_duplicate_iff_witness :
  ("Petra - The Lost Kingdom" = duplicate_name
   <-> contains duplicate_name
         (normalise "🆕Petra - The Lost Kingdom [Petra] - Acme Co (South Town)")
       = true)
  /\ (contains duplicate_name
        (normalise "🆕Petra - The Lost Kingdom [Petra] - Acme Co (South Town)")
      = true ->
      Some "Petra - El reino perdido" = Some "Petra - El reino perdido")
  /\ (contains duplicate_name
        (normalise "🆕Petra - The Lost Kingdom [Petra] - Acme Co (South Town)")
      = false ->
      prefix "Petra - The Lost Kingdom"
        (normalise "🆕Petra - The Lost Kingdom [Petra] - Acme Co (South Town)")
      = true).
Proof.
  exact (parse_name_duplicate_iff
           "🆕Petra - The Lost Kingdom [Petra] - Acme Co (South Town)"
           "Petra - The Lost Kingdom" "Acme Co" "South Town"
           (Some "Petra - El reino perdido") eq_refl).
Defined.

(** The fields after the name: organizer and parenthesised location. *)
Lemma organizer_and_location (org loc : string) :
  contains "(" org = false ->
  lstrip " " org = org ->
  rstrip " " org = org ->
  contains "(" loc = false ->
  contains ")" loc = false ->
  getitem_neg (split "(" (org ++ " (" ++ loc ++ ")")) 1 = Ok (loc ++ ")")
  /\ rstrip ")" (loc ++ ")") = loc
  /\ strip " " (replace ("(" ++ loc ++ ")") "" (org ++ " (" ++ loc ++ ")"))
     = org.
Proof.
  intros Horg Hl Hr Hopen Hclose.
  assert (contains "(" (org ++ " ") = false) as Hfront
    by (now apply contains_char_app).
  change (org ++ " (" ++ loc ++ ")")
    with (org ++ " " ++ String "(" (loc ++ ")")).
  rewrite <- append_associative. split; [|split].
  - rewrite (split_char_app _ _ _ Hfront).
    rewrite split_absent; [reflexivity|]. now apply contains_char_app.
  - now rewrite rstrip_char_app, rstrip_char_absent.
  - change ("(" ++ loc ++ ")") with (String "(" (loc ++ ")")).
    rewrite (replace_trailing_group _ _ Hfront). unfold strip.
    now rewrite rstrip_char_app, Hr.
Qed.

Lemma lstrip_blank_of_separator (org : string) :
  org <> "" -> lstrip " - " org = org -> lstrip " " org = org.
Proof.
  destruct org as [|a org]; [congruence|]. intros _ H.
  apply lstrip_fixed_head in H. cbn [mem_char] in H.
  apply orb_false_elim in H as [H _].
  cbn [lstrip mem_char]. now rewrite H.
Qed.

Lemma separator_not_before (name rest : string) (k : nat) :
  contains " -" name = false ->
  (k < length name)%nat ->
  prefix " - " (drop k name ++ " - " ++ rest) = false.
Proof.
  intros Hname Hk. pose proof (contains_drop _ _ k Hname) as Hd.
  pose proof (length_drop k name) as Hlen.
  destruct (drop k name) as [|c [|c2 d]]; [cbn in Hlen; lia| |].
  - cbn [append]. rewrite prefix_cons. destruct (Ascii.eqb " " c); reflexivity.
  - change (String c (String c2 d) ++ " - " ++ rest)
      with (String c (String c2 (d ++ " - " ++ rest))).
    rewrite !prefix_cons in *. rewrite prefix_nil, andb_true_r in Hd.
    destruct (Ascii.eqb " " c); [|reflexivity].
    destruct (Ascii.eqb "-" c2); [discriminate|reflexivity].
Qed.

(** X9: Round trip: a composite name put together from a plain room name, an
    organizer and a location splits back into these parts. *)
Theorem parse_name_round_trip (line room_name org loc : string) :
  normalise line = room_name ++ " - " ++ org ++ " (" ++ loc ++ ")" ->
  contains " -" room_name = false ->
  contains "[" room_name = false ->
  contains room_name (" - " ++ org ++ " (" ++ loc ++ ")") = false ->
  org <> "" ->
  lstrip " - " org = org ->
  rstrip " " org = org ->
  contains "(" org = false ->
  contains " - " (org ++ " (" ++ loc ++ ")") = false ->
  contains "(" loc = false ->
  contains ")" loc = false ->
  contains organizer_exception (normalise line) = false ->
  contains duplicate_name (normalise line) = false ->
  parse_name line = Ok (room_name, None, org, loc).
Proof.
  intros Hline Hdash Hbracket Hrecur Hne Hlead Htrail Horg Hrest Hopen Hclose
    Hexc Hdup.
  destruct (organizer_and_location org loc Horg
              (lstrip_blank_of_separator _ Hne Hlead) Htrail Hopen Hclose)
    as (Hgroup & Hloc & Hcompany).
  unfold parse_name, room_name_part_of. rewrite Hexc, Hdup, Hline.
  rewrite split_at_first;
    [|discriminate|intros k Hk; now apply separator_not_before].
  rewrite (split_absent _ _ Hrest). unfold slice_to_neg.
  cbn [List.length Nat.sub firstn join concat bind].
  rewrite (split_absent _ _ Hbracket). cbn [getitem nth_error bind].
  rewrite Hbracket. cbn [bind].
  rewrite (replace_leading _ _ Hrecur).
  change (lstrip " - " (" - " ++ org ++ " (" ++ loc ++ ")"))
    with (lstrip " - " (org ++ " (" ++ loc ++ ")")).
  rewrite (lstrip_app_kept _ _ _ Hne Hlead), Hgroup. cbn [bind].
  now rewrite Hloc, Hcompany.
Qed.

Lemma parse_name_round_trip_witness :
  parse_name "🆕Tom &amp; Jerry - Acme Co (Springfield, USA)"
  = Ok ("Tom & Jerry", None, "Acme Co", "Springfield, USA").
Proof.
  apply parse_name_round_trip; try (vm_compute; reflexivity).
  discriminate.
Defined.

Lemma replace_empty_nil (s : string) : replace_empty "" s = s.
Proof.
  induction s as [|a s IH]; [reflexivity|]. cbn [replace_empty].
  rewrite IH. now destruct (at_boundary s).
Qed.

Lemma replace_nothing (s : string) : replace "" "" s = s.
Proof. unfold replace. cbn [append]. apply replace_empty_nil. Qed.

(** X10: Without the separator [" - "] the splitter does not raise: the display
    name comes out empty, there is no original name, and a text of the shape
    organizer-plus-location is read as just that. *)
Theorem parse_name_without_separator (line : string) :
  contains " - " (normalise line) = false ->
  (exists company loc, parse_name line = Ok ("", None, company, loc))
  /\ (forall org loc,
         normalise line = org ++ " (" ++ loc ++ ")" ->
         org <> "" ->
         lstrip " - " org = org ->
         rstrip " " org = org ->
         contains "(" org = false ->
         contains "(" loc = false ->
         contains ")" loc = false ->
         parse_name line = Ok ("", None, org, loc)).
Proof.
  intros Hsep.
  assert (contains organizer_exception (normalise line) = false) as Hexc
    by (apply (contains_absent_trans " - "); [reflexivity|exact Hsep]).
  assert (contains duplicate_name (normalise line) = false) as Hdup
    by (apply (contains_absent_trans " - "); [reflexivity|exact Hsep]).
  assert (parse_name line
          = (last_group <-
               getitem_neg (split "(" (lstrip " - " (normalise line))) 1 ;;
             Ok ("", None,
                 strip " "
                   (replace ("(" ++ rstrip ")" last_group ++ ")") ""
                      (lstrip " - " (normalise line))),
                 rstrip ")" last_group))) as Hparse.
  { unfold parse_name, room_name_part_of. rewrite Hexc, Hdup.
    rewrite (split_absent _ _ Hsep). unfold slice_to_neg.
    cbn [List.length Nat.sub firstn join concat bind].
    change (split "[" "") with [""]. cbn [getitem nth_error bind].
    change (contains "[" "") with false. cbn [bind].
    now rewrite replace_nothing. }
  rewrite Hparse. split.
  - destruct (split_last "(" (lstrip " - " (normalise line))) as [g ->].
    cbn [bind]. eexists _, _. reflexivity.
  - intros org loc Hline Hne Hlead Htrail Horg Hopen Hclose.
    destruct (organizer_and_location org loc Horg
                (lstrip_blank_of_separator _ Hne Hlead) Htrail Hopen Hclose)
      as (Hgroup & Hloc & Hcompany).
    rewrite Hline, (lstrip_app_kept _ _ _ Hne Hlead), Hgroup. cbn [bind].
    now rewrite Hloc, Hcompany.
Qed.

Lemma parse_name_without_separator_witness :
  parse_name "Acme Co (Springfield)" = Ok ("", None, "Acme Co", "Springfield").
Proof.
  refine (proj2 (parse_name_without_separator "Acme Co (Springfield)" _)
            "Acme Co" "Springfield" _ _ _ _ _ _ _);
    try (vm_compute; reflexivity).
  discriminate.
Defined.

(** ** More on the merger *)

Section MoreMergerFacts.

Lemma first_match {A : Type} (p : A -> bool) (l : list A) :
  Forall (fun a => p a = false) l
  \/ exists pre x post,
       l = (pre ++ x :: post)%list
       /\ Forall (fun a => p a = false) pre
       /\ p x = true.
Proof.
  induction l as [|a l IH]; [left; constructor|].
  destruct (p a) eqn:Ha.
  - right. exists [], a, l. repeat split; [constructor|exact Ha].
  - destruct IH as [IH|(pre & x & post & -> & Hpre & Hx)].
    + left. now constructor.
    + right. exists (a :: pre), x, post. repeat split; [|exact Hx].
      now constructor.
Qed.

Lemma get_rooms_without_duplicate (phase1 : list Phase1Room)
  (phase2 : list Phase2Room) :
  Forall (fun room => splits_to_duplicate room = false) phase1 ->
  get_rooms phase1 phase2 = Raise IndexError.
Proof.
  intros Hall. unfold get_rooms.
  destruct (build_rooms_total phase1) as [rooms Hb]. rewrite Hb. cbn [bind].
  now rewrite (remove_duplicate_absent _ (build_rooms_duplicates _ _ Hb Hall)).
Qed.

Lemma get_rooms_with_duplicate (before after : list Phase1Room)
  (entry : Phase1Room) (phase2 : list Phase2Room) :
  Forall (fun room => splits_to_duplicate room = false) before ->
  splits_to_duplicate entry = true ->
  exists rooms,
    build_rooms (before ++ after) = Ok rooms
    /\ Forall (fun r => phase2_rank r = "Not ranked") rooms
    /\ get_rooms (before ++ entry :: after) phase2 = overlay phase2 rooms.
Proof.
  intros Hbefore Hentry.
  destruct (build_rooms_total before) as [rb Hrb].
  destruct (build_rooms_total after) as [ra Hra].
  destruct (new_room_total entry) as [x Hx].
  exists (rb ++ ra)%list. split; [now apply build_rooms_app|]. split.
  - assert (forall l rooms, build_rooms l = Ok rooms ->
              Forall (fun r => phase2_rank r = "Not ranked") rooms) as Hrank.
    { intros l rooms H. apply build_rooms_spec in H.
      induction H as [|room r l' rooms' Hr _ IH]; constructor; [|exact IH].
      unfold new_room in Hr.
      destruct (parse_name (name room)) as [|[[[e o] c] lo]]; [discriminate|].
      cbn [bind] in Hr. now injection Hr as <-. }
    apply Forall_app. split; [exact (Hrank _ _ Hrb)|exact (Hrank _ _ Hra)].
  - assert (build_rooms (entry :: after) = Ok (x :: ra)) as Hxa.
    { cbn [build_rooms]. now rewrite Hx, Hra. }
    unfold get_rooms. rewrite (build_rooms_app _ _ _ _ Hrb Hxa).
    cbn [bind]. rewrite remove_duplicate_first; [reflexivity| |].
    + exact (build_rooms_duplicates _ _ Hrb Hbefore).
    + now rewrite (new_room_duplicate _ _ Hx).
Qed.

Lemma with_rank_twice (r : EscapeRoom) (a b : string) :
  with_rank (with_rank r a) b = with_rank r b.
Proof. reflexivity. Qed.

Lemma with_rank_same (r : EscapeRoom) : with_rank r (phase2_rank r) = r.
Proof. now destruct r. Qed.

Lemma apply_row_rank (r : EscapeRoom) (row : Phase2Room) :
  apply_row r row = with_rank r (phase2_rank (apply_row r row)).
Proof.
  unfold apply_row. destruct (row_key row) as [[e c]|];
    [|now rewrite with_rank_same].
  destruct (same_key e c r); [reflexivity|now rewrite with_rank_same].
Qed.

Lemma apply_rows_rank (phase2 : list Phase2Room) (r : EscapeRoom) :
  apply_rows phase2 r = with_rank r (phase2_rank (apply_rows phase2 r)).
Proof.
  revert r. induction phase2 as [|row rest IH]; intros r.
  - cbn. now rewrite with_rank_same.
  - rewrite apply_rows_cons, IH. rewrite (apply_row_rank r row) at 1.
    now rewrite with_rank_twice.
Qed.

Lemma same_key_room_key (e c : string) (r : EscapeRoom) :
  same_key e c r = true <-> room_key r = (e, c).
Proof.
  unfold same_key, room_key. rewrite andb_true_iff, !String.eqb_eq.
  split; [now intros [-> ->]|]. intros H. now injection H as -> ->.
Qed.

Lemma apply_row_miss (r : EscapeRoom) (row : Phase2Room) :
  row_key row <> Some (room_key r) -> apply_row r row = r.
Proof.
  unfold apply_row. destruct (row_key row) as [[e c]|]; [|reflexivity].
  intros H. destruct (same_key e c r) eqn:E; [|reflexivity].
  apply same_key_room_key in E. congruence.
Qed.

Lemma apply_row_hit (r : EscapeRoom) (row : Phase2Room) :
  row_key row = Some (room_key r) -> apply_row r row = with_rank r (rank row).
Proof.
  unfold apply_row. intros ->. unfold room_key.
  assert (same_key (room_name_english r) (company_name r) r = true) as ->
    by (now apply same_key_room_key).
  reflexivity.
Qed.

Lemma apply_rows_key (phase2 : list Phase2Room) (r : EscapeRoom) :
  room_key (apply_rows phase2 r) = room_key r.
Proof. now rewrite apply_rows_rank. Qed.

Lemma apply_rows_miss (phase2 : list Phase2Room) (r : EscapeRoom) :
  (forall row, In row phase2 -> row_key row <> Some (room_key r)) ->
  apply_rows phase2 r = r.
Proof.
  induction phase2 as [|row rest IH]; intros H; [reflexivity|].
  rewrite apply_rows_cons, apply_row_miss by (apply H; now left).
  apply IH. intros row' Hin. apply H. now right.
Qed.

Lemma apply_rows_app (a b : list Phase2Room) (r : EscapeRoom) :
  apply_rows (a ++ b) r = apply_rows b (apply_rows a r).
Proof. apply fold_left_app. Qed.

(** The ranking loop raises nothing but the correlation assertion. *)
Lemma overlay_raises (phase2 : list Phase2Room) (rooms : list EscapeRoom)
  (e : exn) :
  overlay phase2 rooms = Raise e ->
  exists row english company,
    In row phase2
    /\ row_key row = Some (english, company)
    /\ key_count english company rooms <> 1%nat
    /\ e = AssertionError
             (correlation_message (key_count english company rooms)
                english company).
Proof.
  revert rooms. induction phase2 as [|row rest IH]; intros rooms H;
    [discriminate|].
  destruct (row_key_parse row) as (en & o & c & l & _ & Hk).
  rewrite (overlay_step _ _ _ _ _ Hk) in H.
  destruct (Nat.eq_dec (key_count en c rooms) 1) as [Hone|Hne].
  - destruct (find_room_unique rooms c en c Hone) as (i & r & Hf & _).
    rewrite Hf in H. cbn [bind] in H.
    destruct (IH _ H) as (row' & en' & c' & Hin & Hk' & Hn & ->).
    rewrite (key_count_keys en' c' _ rooms) in * by apply set_rank_keys.
    exists row', en', c'. repeat split; trivial. now right.
  - rewrite (find_room_ambiguous rooms c en c Hne) in H. cbn [bind] in H.
    injection H as <-. exists row, en, c. repeat split; trivial. now left.
Qed.

End MoreMergerFacts.

(** X11: The merged list is the terse listing without the first entry that splits
    to the duplicate name, in document order; every field but the rank label
    is the one built from the terse entry. *)
Theorem get_rooms_entries (phase1 : list Phase1Room)
  (phase2 : list Phase2Room) (out : list EscapeRoom) :
  get_rooms phase1 phase2 = Ok out ->
  exists before entry after,
    phase1 = (before ++ entry :: after)%list
    /\ Forall (fun room => splits_to_duplicate room = false) before
    /\ splits_to_duplicate entry = true
    /\ Forall2 (fun room o =>
                  exists r, new_room room = Ok r
                            /\ o = with_rank r (phase2_rank o))
         (before ++ after) out
    /\ List.length phase1 = S (List.length out).
Proof.
  intros H.
  destruct (first_match splits_to_duplicate phase1)
    as [Hnone|(before & entry & after & -> & Hbefore & Hentry)].
  - now rewrite (get_rooms_without_duplicate _ phase2 Hnone) in H.
  - exists before, entry, after. repeat split; trivial.
    + destruct (get_rooms_with_duplicate before after entry phase2
                  Hbefore Hentry) as (rooms & Hb & _ & Hget).
      rewrite Hget in H. apply overlay_apply_rows in H. subst out.
      apply build_rooms_spec in Hb. clear Hget.
      induction Hb as [|room r l rooms Hr _ IH]; [constructor|].
      cbn [map]. constructor; [|exact IH].
      exists r. split; [exact Hr|apply apply_rows_rank].
    + destruct (get_rooms_with_duplicate before after entry phase2
                  Hbefore Hentry) as (rooms & Hb & _ & Hget).
      rewrite Hget in H. apply overlay_apply_rows in H. subst out.
      apply build_rooms_spec, Forall2_length in Hb.
      rewrite length_map, <- Hb, !length_app. cbn [List.length]. lia.
Qed.

Lemma get_rooms_entries_witness :
  exists before entry after,
    firstn 3 sample_phase1 = (before ++ entry :: after)%list
    /\ splits_to_duplicate entry = true
    /\ List.length (firstn 3 sample_phase1) = 3%nat.
Proof.
  let out := eval vm_compute in (get_rooms (firstn 3 sample_phase1) [merged_row])
  in match out with
     | Ok ?o =>
         destruct (get_rooms_entries (firstn 3 sample_phase1) [merged_row] o
                     eq_refl)
           as (before & entry & after & E & _ & Hentry & _ & Hlen)
     end.
  exists before, entry, after. split; [exact E|]. split; [exact Hentry|].
  exact Hlen.
Defined.

(** X12: Rank labels of a merged list: an entry no ranking row refers to keeps
    ["Not ranked"], and an entry that rows refer to carries the rank of the
    last of them. *)
Theorem get_rooms_ranks (phase1 : list Phase1Room) (phase2 : list Phase2Room)
  (out : list EscapeRoom) (o : EscapeRoom) :
  get_rooms phase1 phase2 = Ok out ->
  In o out ->
  ((forall row, In row phase2 -> row_key row <> Some (room_key o)) ->
   phase2_rank o = "Not ranked")
  /\ (forall earlier row later,
         phase2 = (earlier ++ row :: later)%list ->
         row_key row = Some (room_key o) ->
         (forall r, In r later -> row_key r <> Some (room_key o)) ->
         phase2_rank o = rank row).
Proof.
  intros H Hin.
  destruct (first_match splits_to_duplicate phase1)
    as [Hnone|(before & entry & after & -> & Hbefore & Hentry)];
    [now rewrite (get_rooms_without_duplicate _ phase2 Hnone) in H|].
  destruct (get_rooms_with_duplicate before after entry phase2 Hbefore Hentry)
    as (rooms & _ & Hranks & Hget).
  rewrite Hget in H. apply overlay_apply_rows in H. subst out.
  apply in_map_iff in Hin as (r & <- & Hr).
  rewrite Forall_forall in Hranks. specialize (Hranks r Hr).
  rewrite apply_rows_key. split.
  - intros Hmiss. now rewrite apply_rows_miss.
  - intros earlier row later -> Hrow Hlater.
    rewrite apply_rows_app, apply_rows_cons.
    rewrite apply_row_hit by (now rewrite apply_rows_key).
    rewrite apply_rows_miss; [reflexivity|].
    intros r' Hr'. specialize (Hlater r' Hr').
    now rewrite (apply_rows_rank earlier r).
Qed.

Lemma get_rooms_ranks_witness :
  exists out,
    get_rooms (firstn 3 sample_phase1)
      [sample_row "7" "Twin Room - Beta Games (Springfield)";
       sample_row "2" "Twin Room - Beta Games (Springfield)"] = Ok out
    /\ forall o, In o out ->
         (room_key o = ("Twin Room", "Beta Games") -> phase2_rank o = "2")
         /\ (room_key o = (duplicate_name, "Acme Co") ->
             phase2_rank o = "Not ranked").
Proof.
  eexists. split; [vm_compute; reflexivity|].
  intros o Hin.
  match goal with
  | H : In o ?out |- _ =>
      pose proof
        (get_rooms_ranks (firstn 3 sample_phase1)
           [sample_row "7" "Twin Room - Beta Games (Springfield)";
            sample_row "2" "Twin Room - Beta Games (Springfield)"]
           out o eq_refl H) as [Hnone Hlast]
  end.
  split; intros Hkey.
  - apply (Hlast [sample_row "7" "Twin Room - Beta Games (Springfield)"]
             (sample_row "2" "Twin Room - Beta Games (Springfield)") []
             eq_refl).
    + now rewrite Hkey.
    + intros r [].
  - apply Hnone. rewrite Hkey. intros row [<-|[<-|[]]]; discriminate.
Defined.

(** X13: [get_rooms] raises [IndexError] exactly when no terse entry splits to
    the duplicate name; an [AssertionError] it raises always carries the
    message of a ranking row whose pair does not have exactly one entry; and
    it never raises [ValueError]: the index lookup of the collapse always
    finds its room. *)
Theorem get_rooms_errors (phase1 : list Phase1Room)
  (phase2 : list Phase2Room) :
  (get_rooms phase1 phase2 = Raise IndexError
   <-> Forall (fun room => splits_to_duplicate room = false) phase1)
  /\ (forall msg,
         get_rooms phase1 phase2 = Raise (AssertionError msg) ->
         exists row english company n,
           In row phase2
           /\ row_key row = Some (english, company)
           /\ n <> 1%nat
           /\ msg = correlation_message n english company)
  /\ get_rooms phase1 phase2 <> Raise ValueError.
Proof.
  destruct (first_match splits_to_duplicate phase1)
    as [Hnone|(before & entry & after & -> & Hbefore & Hentry)].
  - rewrite (get_rooms_without_duplicate _ phase2 Hnone).
    split; [tauto|]. split; discriminate.
  - destruct (get_rooms_with_duplicate before after entry phase2
                Hbefore Hentry) as (rooms & _ & _ & ->).
    split; [|split].
    + split.
      * intros H.
        destruct (overlay_raises _ _ _ H) as (? & ? & ? & _ & _ & _ & He).
        discriminate.
      * intros Hall. apply Forall_app in Hall as [_ Hall].
        inversion Hall as [|? ? Hfalse _]; subst. congruence.
    + intros msg H.
      destruct (overlay_raises _ _ _ H) as (row & en & c & Hin & Hk & Hn & He).
      injection He as ->.
      exists row, en, c, (key_count en c rooms). auto.
    + intros H.
      destruct (overlay_raises _ _ _ H) as (? & ? & ? & _ & _ & _ & He).
      discriminate.
Qed.

Lemma get_rooms_errors_witness :
  get_rooms (skipn 2 sample_phase1) [merged_row] = Raise IndexError.
Proof.
  apply (proj1 (get_rooms_errors (skipn 2 sample_phase1) [merged_row])).
  repeat constructor.
Defined.

(** X14: With a single terse entry for the duplicate name the collapse removes
    it: no merged entry bears that name, and a ranking row for it finds no
    entry. *)
Theorem single_duplicate_unrankable (before after : list Phase1Room)
  (entry : Phase1Room) (row : Phase2Room) (rest : list Phase2Room)
  (company : string) :
  Forall (fun room => splits_to_duplicate room = false) (before ++ after) ->
  splits_to_duplicate entry = true ->
  row_key row = Some (duplicate_name, company) ->
  (exists out,
      get_rooms (before ++ entry :: after) [] = Ok out
      /\ Forall (fun r => is_duplicate r = false) out)
  /\ get_rooms (before ++ entry :: after) (row :: rest)
     = Raise (AssertionError (correlation_message 0 duplicate_name company)).
Proof.
  intros Hothers Hentry Hrow.
  pose proof Hothers as Hsplit. apply Forall_app in Hsplit as [Hbefore _].
  split.
  - destruct (get_rooms_with_duplicate before after entry [] Hbefore Hentry)
      as (rooms & Hb & _ & ->).
    exists rooms. split; [reflexivity|].
    exact (build_rooms_duplicates _ _ Hb Hothers).
  - destruct (get_rooms_with_duplicate before after entry (row :: rest)
                Hbefore Hentry) as (rooms & Hb & _ & ->).
    pose proof (build_rooms_duplicates _ _ Hb Hothers) as Hnone.
    assert (key_count duplicate_name company rooms = 0%nat) as Hzero.
    { unfold key_count. rewrite filter_none; [reflexivity|].
      eapply Forall_impl; [|exact Hnone].
      intros r. apply same_key_not_duplicate. }
    rewrite <- Hzero at 1.
    apply (overlay_first_failure [] rest row rooms duplicate_name company);
      [constructor|exact Hrow|lia].
Qed.

Lemma single_duplicate_unrankable_witness :
  get_rooms (skipn 1 sample_phase1) [merged_row]
  = Raise (AssertionError
             "Found 0 with name Petra - The Lost Kingdom and company Acme Co").
Proof.
  let l := eval vm_compute in (skipn 1 sample_phase1) in
  match l with
  | ?entry :: ?after =>
      exact (proj2 (single_duplicate_unrankable [] after entry merged_row []
                      "Acme Co" ltac:(repeat constructor) eq_refl eq_refl))
  end.
Defined.

(** ** Whole listings *)

Lemma decode_line_returns_iff (line : string) :
  (exists room, decode_line line = Ok room)
  <-> contains " " line = true /\ has_rating_marker line = true.
Proof.
  pose proof (decode_line_errors line) as H.
  pose proof (split_char_length " " line) as [Hlen1 Hlen2].
  destruct (decode_line line) as [[| |msg|msg]|room]; try contradiction.
  - split; [intros [? ?]; discriminate|]. intros [Hc _].
    specialize (Hlen2 Hc). lia.
  - destruct H as (_ & Hm & _). rewrite Hm.
    split; [intros [? ?]; discriminate|]. intros [_ ?]. discriminate.
  - destruct H as (Hlen & Hm). split; [|intros _; now exists room].
    intros _. split; [apply Hlen1, Hlen|exact Hm].
Qed.

(** X4: A listing decodes as a whole or not at all: [decode_lines] returns
    exactly when every line holds a blank and a rating marker, then with one
    record per line in document order; otherwise it raises what the first
    undecodable line raises. *)
Theorem decode_lines_all_or_nothing (lines : list string) :
  ((exists rooms, decode_lines lines = Ok rooms)
   <-> Forall (fun line => contains " " line = true
                           /\ has_rating_marker line = true) lines)
  /\ (forall rooms,
         decode_lines lines = Ok rooms ->
         Forall2 (fun line room => decode_line line = Ok room) lines rooms)
  /\ (forall good bad rest e,
         lines = (good ++ bad :: rest)%list ->
         Forall (fun line => exists room, decode_line line = Ok room) good ->
         decode_line bad = Raise e ->
         decode_lines lines = Raise e).
Proof.
  split; [|split].
  - induction lines as [|line rest IH].
    + split; [constructor|]. intros _. now exists [].
    + cbn [decode_lines]. rewrite Forall_cons_iff, <- IH.
      rewrite <- decode_line_returns_iff. split.
      * intros [rooms H].
        destruct (decode_line line) as [|room]; [discriminate|].
        cbn [bind] in H.
        destruct (decode_lines rest) as [|rs]; [discriminate|].
        split; eexists; reflexivity.
      * intros [[room ->] [rs ->]]. cbn [bind]. eexists; reflexivity.
  - induction lines as [|line rest IH]; intros rooms H.
    + injection H as <-. constructor.
    + cbn [decode_lines] in H.
      destruct (decode_line line) as [|room] eqn:Hl; [discriminate|].
      cbn [bind] in H.
      destruct (decode_lines rest) as [|rs]; [discriminate|].
      cbn [bind] in H. injection H as <-. constructor; auto.
  - intros good bad rest e -> Hgood Hbad.
    induction Hgood as [|line good [room Hroom] _ IH].
    + cbn [app decode_lines]. now rewrite Hbad.
    + cbn [app decode_lines]. now rewrite Hroom, IH.
Qed.

Lemma decode_lines_all_or_nothing_witness :
  decode_lines ["Foo - Org (Town) (12) ☀🇬🇧"; "Bar - Org (Town) (3)"; "Baz"]
  = Raise (AttributeError
             "Couldn't find a terror level in 'Bar - Org (Town) (3)'").
Proof.
  refine (proj2 (proj2 (decode_lines_all_or_nothing _))
            ["Foo - Org (Town) (12) ☀🇬🇧"] "Bar - Org (Town) (3)" ["Baz"] _
            eq_refl _ eq_refl).
  constructor; [|constructor]. eexists. reflexivity.
Defined.

Section RowOrder.

Lemma row_key_dec (a b : option (string * string)) : {a = b} + {a <> b}.
Proof. repeat decide equality. Defined.

Lemma row_for_key (phase2 : list Phase2Room) (key : string * string) :
  (exists row, In row phase2 /\ row_key row = Some key)
  \/ (forall row, In row phase2 -> row_key row <> Some key).
Proof.
  induction phase2 as [|row rest IH]; [right; intros ? []|].
  destruct (row_key_dec (row_key row) (Some key)) as [E|N].
  - left. exists row. split; [now left|exact E].
  - destruct IH as [(row' & Hin & E)|Hnone].
    + left. exists row'. split; [now right|exact E].
    + right. intros row' [<-|Hin]; auto.
Qed.

(** With pairwise distinct row keys, the one row that refers to a room
    decides its rank. *)
Lemma apply_rows_single (phase2 : list Phase2Room) (row : Phase2Room)
  (r : EscapeRoom) :
  NoDup (map row_key phase2) ->
  In row phase2 ->
  row_key row = Some (room_key r) ->
  apply_rows phase2 r = with_rank r (rank row).
Proof.
  intros Hnd Hin Hk. apply in_split in Hin as (a & b & ->).
  rewrite map_app in Hnd. cbn [map] in Hnd.
  pose proof (NoDup_remove_2 _ _ _ Hnd) as Hnot.
  rewrite apply_rows_app, apply_rows_cons.
  rewrite (apply_rows_miss a).
  - rewrite (apply_row_hit _ _ Hk). apply apply_rows_miss.
    intros row' Hin' E. apply Hnot. apply in_or_app. right.
    apply in_map_iff. exists row'. split; [|exact Hin'].
    change (room_key (with_rank r (rank row))) with (room_key r) in E.
    congruence.
  - intros row' Hin' E. apply Hnot. apply in_or_app. left.
    apply in_map_iff. exists row'. split; [congruence|exact Hin'].
Qed.

Lemma apply_rows_permutation (phase2 phase2' : list Phase2Room)
  (r : EscapeRoom) :
  Permutation phase2 phase2' ->
  NoDup (map row_key phase2) ->
  apply_rows phase2' r = apply_rows phase2 r.
Proof.
  intros Hperm Hnd.
  assert (NoDup (map row_key phase2')) as Hnd'
    by (eapply Permutation_NoDup; [apply Permutation_map, Hperm|exact Hnd]).
  destruct (row_for_key phase2 (room_key r)) as [(row & Hin & Hk)|Hnone].
  - rewrite (apply_rows_single phase2 row r Hnd Hin Hk).
    apply (apply_rows_single phase2' row r Hnd'); [|exact Hk].
    eapply Permutation_in; eassumption.
  - rewrite (apply_rows_miss phase2 r Hnone). apply apply_rows_miss.
    intros row Hin. apply Hnone.
    eapply Permutation_in; [apply Permutation_sym, Hperm|exact Hin].
Qed.

End RowOrder.

(** X15: When no two ranking rows refer to the same pair, the order of the rows
    does not matter: a reordered table gives the same merged list. *)
Theorem get_rooms_row_order (phase1 : list Phase1Room)
  (phase2 phase2' : list Phase2Room) (out : list EscapeRoom) :
  Permutation phase2 phase2' ->
  NoDup (map row_key phase2) ->
  get_rooms phase1 phase2 = Ok out ->
  get_rooms phase1 phase2' = Ok out.
Proof.
  intros Hperm Hnd H.
  destruct (first_match splits_to_duplicate phase1)
    as [Hnone|(before & entry & after & -> & Hbefore & Hentry)];
    [now rewrite (get_rooms_without_duplicate _ phase2 Hnone) in H|].
  destruct (get_rooms_with_duplicate before after entry phase2 Hbefore Hentry)
    as (rooms & Hb & _ & Hget).
  destruct (get_rooms_with_duplicate before after entry phase2' Hbefore Hentry)
    as (rooms' & Hb' & _ & Hget').
  rewrite Hb in Hb'. injection Hb' as <-.
  rewrite Hget in H. rewrite Hget'.
  assert (exists out', overlay phase2' rooms = Ok out') as [out' Hout'].
  { apply overlay_returns_iff.
    eapply Permutation_Forall; [exact Hperm|].
    apply overlay_returns_iff. now exists out. }
  rewrite Hout'. f_equal.
  apply overlay_apply_rows in H. apply overlay_apply_rows in Hout'.
  subst out out'. apply map_ext. intros r.
  now apply apply_rows_permutation.
Qed.

Lemma get_rooms_row_order_witness :
  get_rooms (firstn 3 sample_phase1)
    [sample_row "2" "Twin Room - Beta Games (Springfield)"; merged_row]
  = get_rooms (firstn 3 sample_phase1)
      [merged_row; sample_row "2" "Twin Room - Beta Games (Springfield)"].
Proof.
  let out :=
    eval vm_compute in
      (get_rooms (firstn 3 sample_phase1)
         [merged_row; sample_row "2" "Twin Room - Beta Games (Springfield)"])
  in match out with
     | Ok ?o =>
         transitivity (@Ok (list EscapeRoom) o);
         [apply (get_rooms_row_order (firstn 3 sample_phase1)
                   [merged_row;
                    sample_row "2" "Twin Room - Beta Games (Springfield)"])
         |vm_compute; reflexivity]
     end.
  - apply perm_swap.
  - repeat constructor; cbn; intuition discriminate.
  - vm_compute. reflexivity.
Defined.

(** ** Languages of separated parts *)

Section SeparatedParts.

Lemma prefix_across_char (m a b : string) (c : ascii) :
  mem_char c m = false ->
  prefix m (a ++ String c b) = prefix m a.
Proof.
  intros Hc. destruct (prefix m a) eqn:E.
  - now apply prefix_app_r.
  - destruct (prefix m (a ++ String c b)) eqn:E'; [|reflexivity].
    apply (prefix_before_char _ _ _ _ Hc) in E'. congruence.
Qed.

(** A text free of the character [c] occurs in [a + c + b] exactly when it
    occurs in [a] or in [b]. *)
Lemma contains_across_char (m a b : string) (c : ascii) :
  mem_char c m = false ->
  contains m (a ++ String c b) = contains m a || contains m b.
Proof.
  intros Hc. induction a as [|x a IH].
  - pose proof (prefix_across_char m "" b c Hc) as H0.
    cbn [append] in H0. cbn [append contains]. now rewrite H0.
  - change (String x a ++ String c b) with (String x (a ++ String c b)).
    cbn [contains]. rewrite IH, <- orb_assoc. f_equal.
    exact (prefix_across_char m (String x a) b c Hc).
Qed.

Lemma contains_joined (m : string) (c : ascii) (parts : list string) :
  m <> "" ->
  mem_char c m = false ->
  contains m (join (String c "") parts) = existsb (contains m) parts.
Proof.
  intros Hm Hc. induction parts as [|x parts IH].
  - cbn. destruct m; [congruence|reflexivity].
  - destruct parts as [|y parts].
    + cbn [join concat existsb]. now rewrite orb_false_r.
    + rewrite join_cons by easy.
      change (x ++ String c "" ++ join (String c "") (y :: parts))
        with (x ++ String c (join (String c "") (y :: parts))).
      rewrite (contains_across_char _ _ _ _ Hc), IH. reflexivity.
Qed.

Lemma existsb_reordered {A : Type} (f : A -> bool) (l l' : list A) :
  Permutation l l' -> existsb f l = existsb f l'.
Proof.
  induction 1 as [|x l l' _ IH|x y l|l l' l'' _ IH1 _ IH2].
  - reflexivity.
  - cbn [existsb]. now rewrite IH.
  - cbn [existsb]. rewrite !orb_assoc. f_equal. apply orb_comm.
  - now rewrite IH1.
Qed.

Lemma marker_facts (c : ascii) (marker language : string) :
  foreign c = true ->
  In (marker, language) language_table ->
  marker <> "" /\ mem_char c marker = false.
Proof.
  intros Hc Hin.
  assert (In marker language_markers) as Hm
    by (unfold language_markers; now apply (in_map fst) in Hin).
  split.
  - assert (forallb (fun m => negb (String.eqb m "")) language_markers = true)
      as Hne by (vm_compute; reflexivity).
    rewrite forallb_forall in Hne. specialize (Hne _ Hm).
    apply negb_true_iff, String.eqb_neq in Hne. exact Hne.
  - unfold foreign in Hc. rewrite forallb_forall in Hc.
    now apply negb_true_iff, Hc.
Qed.

Lemma parse_languages_agree (line1 line2 : string) :
  (forall marker language,
      In (marker, language) language_table ->
      contains marker line1 = contains marker line2) ->
  parse_languages line1 = parse_languages line2.
Proof.
  intros H. rewrite !parse_languages_table. apply flat_map_agree.
  intros [marker language] Hin. unfold yield_if. cbn [fst snd].
  now rewrite (H marker language Hin).
Qed.

End SeparatedParts.

(** X16: When the parts of a line are separated by a character that occurs in
    no language marker, the decoded languages do not depend on the order of
    the parts, writing the whole line a second time after such a character
    changes nothing, and a language is decoded for the whole exactly when it
    is decoded for one of the parts. *)
Theorem parse_languages_separated_parts (c : ascii) :
  foreign c = true ->
  (forall parts parts',
      Permutation parts parts' ->
      parse_languages (join (String c "") parts)
      = parse_languages (join (String c "") parts'))
  /\ (forall line,
         parse_languages (line ++ String c line) = parse_languages line)
  /\ (forall a b language,
         In language (parse_languages (a ++ String c b))
         <-> In language (parse_languages a)
             \/ In language (parse_languages b)).
Proof.
  intros Hc. split; [|split].
  - intros parts parts' Hperm. apply parse_languages_agree.
    intros marker language Hin.
    destruct (marker_facts c _ _ Hc Hin) as [Hne Hm].
    rewrite !contains_joined by assumption.
    now apply existsb_reordered.
  - intros line. apply parse_languages_agree.
    intros marker language Hin.
    destruct (marker_facts c _ _ Hc Hin) as [_ Hm].
    rewrite (contains_across_char _ _ _ _ Hm). apply orb_diag.
  - intros a b language.
    assert (forall line,
               In language (parse_languages line)
               <-> exists marker, In (marker, language) language_table
                                  /\ contains marker line = true) as Hin.
    { intros line. rewrite parse_languages_table, in_flat_map.
      unfold yield_if. split.
      - intros [[marker l] [Hrow Hyield]]. cbn [fst snd] in Hyield.
        destruct (contains marker line) eqn:Hm; [|contradiction].
        destruct Hyield as [->|[]]. now exists marker.
      - intros [marker [Hrow Hm]]. exists (marker, language).
        cbn [fst snd]. rewrite Hm. split; [assumption|now left]. }
    rewrite !Hin. split.
    + intros (marker & Hrow & Hm).
      destruct (marker_facts c _ _ Hc Hrow) as [_ Hfree].
      rewrite (contains_across_char _ _ _ _ Hfree) in Hm.
      apply orb_true_iff in Hm as [Hm|Hm]; [left|right]; now exists marker.
    + intros [(marker & Hrow & Hm)|(marker & Hrow & Hm)];
        exists marker; (split; [exact Hrow|]);
        destruct (marker_facts c _ _ Hc Hrow) as [_ Hfree];
        rewrite (contains_across_char _ _ _ _ Hfree), Hm;
        [reflexivity|apply orb_true_r].
Qed.

Lemma parse_languages_separated_parts_witness :
  parse_languages "Foo - Org (Town) (3) ☀/🇬🇧/🇬🇷"
  = parse_languages "Foo - Org (Town) (3) ☀/🇬🇷/🇬🇧".
Proof.
  exact (proj1 (parse_languages_separated_parts "/" eq_refl)
           ["Foo - Org (Town) (3) ☀"; "🇬🇧"; "🇬🇷"]
           ["Foo - Org (Town) (3) ☀"; "🇬🇷"; "🇬🇧"]
           (perm_skip _ (perm_swap _ _ _))).
Defined.
